(** * FittingProblemMultipleCondition: aggregation over conditions and the
      stopping rule of the complexity sweep

    A shallow embedding of [FittingProblemMultipleCondition.py].  The class
    keeps one single-condition [FittingProblem] per experimental condition,
    sweeps the candidate models in order, sums cost and penalty over the
    conditions, and stops once the last [stopFittingN] models brought no new
    best log-likelihood.

    Numbers are Python floats, that is IEEE 754 binary64: Rocq's primitive
    [float], with [PrimFloat.add], [PrimFloat.opp] and [PrimFloat.ltb].
    Dictionaries keyed by model name are [gmap string _].  A method is a
    function from the object's state to the state it leaves behind and either
    a value or the exception that was raised. *)

From Stdlib Require Import ZArith Floats.
From stdpp Require Import gmap strings list fin_maps.

Local Open Scope Z_scope.

(** ** Exceptions and results *)

(** The exceptions this layer can raise or let through.  [Exception] is the
    plain [raise Exception, "..."] of the unsupported methods; [EngineError]
    stands for whatever the single-condition engine raises. *)
Inductive exn : Type :=
  | KeyError (key : string)
  | IndexError
  | AttributeError (attr : string)
  | ValueError
  | Exception (msg : string)
  | EngineError (msg : string).

Inductive result (A : Type) : Type :=
  | Ok (a : A)
  | Raise (e : exn).
Arguments Ok {A} a.
Arguments Raise {A} e.

(** A method over a mutable object of type [S]: the state after the call is
    kept also when the call raises. *)
Definition M (S A : Type) : Type := S -> S * result A.

Definition ret {S A} (a : A) : M S A := fun s => (s, Ok a).

Definition bind {S A B} (m : M S A) (k : A -> M S B) : M S B :=
  fun s =>
    match m s with
    | (s', Ok a) => k a s'
    | (s', Raise e) => (s', Raise e)
    end.

Definition raise {S A} (e : exn) : M S A := fun s => (s, Raise e).
Definition gets {S A} (f : S -> A) : M S A := fun s => (s, Ok (f s)).
Definition modify {S} (f : S -> S) : M S unit := fun s => (f s, Ok tt).

(** A dictionary read [d[k]], which raises [KeyError]. *)
Definition getitem {S V} (d : gmap string V) (k : string) : M S V :=
  match d !! k with
  | Some v => ret v
  | None => raise (KeyError k)
  end.

Declare Scope py_scope.
Delimit Scope py_scope with py.
Notation "x <- m ;; k" := (bind m (fun x => k))
  (at level 100, m at next level, right associativity) : py_scope.
Notation "m ;;; k" := (bind m (fun _ => k))
  (at level 100, right associativity) : py_scope.

(** ** Python built-ins used by the stopping rule *)

(** [max(l)]: the first element is the running maximum and a later element
    replaces it when it compares greater; [None] stands for the [ValueError]
    of an empty argument. *)
Definition py_max (l : list float) : option float :=
  match l with
  | [] => None
  | x :: r => Some (fold_left (fun m y => if PrimFloat.ltb m y then y else m) r x)
  end.

(** [l[start:]] for an integer [start]: a negative start counts from the end,
    and both ends are clipped to the list. *)
Definition py_slice_from {A} (start : Z) (l : list A) : list A :=
  let len := Z.of_nat (length l) in
  let s := if start <? 0 then Z.max (start + len) 0 else Z.min start len in
  drop (Z.to_nat s) l.

(** The last [w] entries of a list (all of them when there are fewer). *)
Definition lastn {A} (w : nat) (l : list A) : list A :=
  drop (length l - w)%nat l.

(** ** The data model *)

Section MultipleCondition.

(** Opaque values of the single-condition engine: a dataset, a candidate
    model, a complexity list of a model family, an independent parameter, the
    keyword arguments passed through, and the engine's private fitting state
    (Hessians, singular values, best parameters). *)
Variables (FittingData FittingModel ComplexityList IndepParam Kwargs : Type).
Variable EngineState : Type.

(** One single-condition [FittingProblem], as far as this module reads it.
    [stopFittingN] is an attribute an instance may lack, so it is optional. *)
Record FittingProblem : Type := mkFittingProblem {
  sub_costDict : gmap string float;
  sub_penaltyDict : gmap string float;
  sub_numParametersDict : gmap string Z;
  sub_fittingModelDict : gmap string FittingModel;
  sub_fittingModelNames : list string;
  sub_indepParamNames : list string;
  sub_cutoff : float;
  sub_verbose : bool;
  sub_perfectModel : option FittingModel;
  sub_perfectParams : option (list float);
  sub_stopFittingN : option Z;
  sub_engine : EngineState
}.

(** The state of a [FittingProblemMultipleCondition] object.  [stopFittingN]
    is optional because [fitAll] asks [hasattr(self,'stopFittingN')]. *)
Record MultiCond : Type := mkMultiCond {
  fittingProblemList : list FittingProblem;
  costDict : gmap string float;
  penaltyDict : gmap string float;
  numParametersDict : gmap string Z;
  logLikelihoodDict : gmap string float;
  fitAllDone : bool;
  saveFilename : option string;
  saveKey : Z;
  pid : Z;
  fittingModelNames : list string;
  indepParamNames : list string;
  cutoff : float;
  verbose : bool;
  perfectModel : option FittingModel;
  perfectParams : option (list float);
  stopFittingN : option Z
}.

Definition set_fittingProblemList (v : list FittingProblem) (s : MultiCond) : MultiCond :=
  mkMultiCond v (costDict s) (penaltyDict s) (numParametersDict s)
    (logLikelihoodDict s) (fitAllDone s) (saveFilename s) (saveKey s) (pid s)
    (fittingModelNames s) (indepParamNames s) (cutoff s) (verbose s)
    (perfectModel s) (perfectParams s) (stopFittingN s).

Definition set_costDict (v : gmap string float) (s : MultiCond) : MultiCond :=
  mkMultiCond (fittingProblemList s) v (penaltyDict s) (numParametersDict s)
    (logLikelihoodDict s) (fitAllDone s) (saveFilename s) (saveKey s) (pid s)
    (fittingModelNames s) (indepParamNames s) (cutoff s) (verbose s)
    (perfectModel s) (perfectParams s) (stopFittingN s).

Definition set_penaltyDict (v : gmap string float) (s : MultiCond) : MultiCond :=
  mkMultiCond (fittingProblemList s) (costDict s) v (numParametersDict s)
    (logLikelihoodDict s) (fitAllDone s) (saveFilename s) (saveKey s) (pid s)
    (fittingModelNames s) (indepParamNames s) (cutoff s) (verbose s)
    (perfectModel s) (perfectParams s) (stopFittingN s).

Definition set_numParametersDict (v : gmap string Z) (s : MultiCond) : MultiCond :=
  mkMultiCond (fittingProblemList s) (costDict s) (penaltyDict s) v
    (logLikelihoodDict s) (fitAllDone s) (saveFilename s) (saveKey s) (pid s)
    (fittingModelNames s) (indepParamNames s) (cutoff s) (verbose s)
    (perfectModel s) (perfectParams s) (stopFittingN s).

Definition set_logLikelihoodDict (v : gmap string float) (s : MultiCond) : MultiCond :=
  mkMultiCond (fittingProblemList s) (costDict s) (penaltyDict s)
    (numParametersDict s) v (fitAllDone s) (saveFilename s) (saveKey s) (pid s)
    (fittingModelNames s) (indepParamNames s) (cutoff s) (verbose s)
    (perfectModel s) (perfectParams s) (stopFittingN s).

Definition set_fitAllDone (v : bool) (s : MultiCond) : MultiCond :=
  mkMultiCond (fittingProblemList s) (costDict s) (penaltyDict s)
    (numParametersDict s) (logLikelihoodDict s) v (saveFilename s) (saveKey s)
    (pid s) (fittingModelNames s) (indepParamNames s) (cutoff s) (verbose s)
    (perfectModel s) (perfectParams s) (stopFittingN s).

Definition set_stopFittingN (v : option Z) (s : MultiCond) : MultiCond :=
  mkMultiCond (fittingProblemList s) (costDict s) (penaltyDict s)
    (numParametersDict s) (logLikelihoodDict s) (fitAllDone s) (saveFilename s)
    (saveKey s) (pid s) (fittingModelNames s) (indepParamNames s) (cutoff s)
    (verbose s) (perfectModel s) (perfectParams s) v.

(** ** The single-condition engine

    [FittingProblem.py] is not part of this module; what is used of it is
    taken as given.  A constructor per model family, which may raise; the
    engine's own [fitAll], which fits the first [maxNumFit] candidate models
    of one condition in place and may raise after it has changed the object;
    and [maxLogLikelihoodName], which the aggregator inherits and which picks
    a model name from its log-likelihoods.

    Each fitting problem owns its state: a fit changes the problem it is
    called on and nothing else, and no problem holds a reference to the
    aggregator.  The two attributes the aggregator shares with its first
    problem by reference, [fittingModelNames] and, after a sweep step,
    [numParametersDict], are kept as values. *)
Variable FittingProblem_init :
  FittingData -> list FittingModel -> list (list IndepParam) -> Kwargs ->
  result FittingProblem.
Variable PowerLawFittingProblem_init :
  ComplexityList -> FittingData -> list (list IndepParam) -> Kwargs ->
  result FittingProblem.
Variable CTSNFittingProblem_init :
  ComplexityList -> FittingData -> list (list IndepParam) -> Kwargs ->
  result FittingProblem.
Variable sub_fitAll : Kwargs -> nat -> M FittingProblem unit.
Variable maxLogLikelihoodName : Z -> M MultiCond string.

(** ** Construction *)

(** [[ ctor(fd, ipl) for fd, ipl in zip(data, params) ]]: [zip] stops at the
    shorter list, and the first constructor that raises ends the
    comprehension. *)
Fixpoint build_fittingProblemList
    (ctor : FittingData -> list (list IndepParam) -> result FittingProblem)
    (pairs : list (FittingData * list (list IndepParam)))
    : result (list FittingProblem) :=
  match pairs with
  | [] => Ok []
  | (fd, ipl) :: rest =>
      match ctor fd ipl with
      | Raise e => Raise e
      | Ok f =>
          match build_fittingProblemList ctor rest with
          | Raise e => Raise e
          | Ok fs => Ok (f :: fs)
          end
      end
  end.

(** [generalSetup]: empty dictionaries, then the constant attributes of the
    first fitting problem.  [fittingProblemList[0]] raises [IndexError] on an
    empty list and [f.stopFittingN] raises [AttributeError] when the first
    problem has no such attribute. *)
Definition generalSetup (fps : list FittingProblem)
    (saveFilename : option string) (saveKey : Z) (getpid : Z)
    : result MultiCond :=
  match fps with
  | [] => Raise IndexError
  | f :: _ =>
      match sub_stopFittingN f with
      | None => Raise (AttributeError "stopFittingN")
      | Some w =>
          Ok {| fittingProblemList := fps;
                costDict := ∅;
                penaltyDict := ∅;
                numParametersDict := ∅;
                logLikelihoodDict := ∅;
                fitAllDone := false;
                saveFilename := saveFilename;
                saveKey := saveKey;
                pid := getpid;
                fittingModelNames := sub_fittingModelNames f;
                indepParamNames := sub_indepParamNames f;
                cutoff := sub_cutoff f;
                verbose := sub_verbose f;
                perfectModel := sub_perfectModel f;
                perfectParams := sub_perfectParams f;
                stopFittingN := Some w |}
      end
  end.

(** The body shared by the three [__init__] methods.  An absent
    [indepParamsListMultiple] becomes one [[[]]] per dataset. *)
Definition construct
    (ctor : FittingData -> list (list IndepParam) -> result FittingProblem)
    (fittingDataMultiple : list FittingData)
    (indepParamsListMultiple : option (list (list (list IndepParam))))
    (saveFilename : option string) (saveKey : Z) (getpid : Z)
    : result MultiCond :=
  let indepParamsListMultiple :=
    match indepParamsListMultiple with
    | None => map (fun _ => [[]]) fittingDataMultiple
    | Some l => l
    end in
  match build_fittingProblemList ctor
          (zip fittingDataMultiple indepParamsListMultiple) with
  | Raise e => Raise e
  | Ok fps => generalSetup fps saveFilename saveKey getpid
  end.

Definition FittingProblemMultipleCondition_init
    (fittingDataMultiple : list FittingData)
    (fittingModelList : list FittingModel)
    (indepParamsListMultiple : option (list (list (list IndepParam))))
    (saveFilename : option string) (saveKey : Z) (kwargs : Kwargs)
    (getpid : Z) : result MultiCond :=
  construct (fun fd ipl => FittingProblem_init fd fittingModelList ipl kwargs)
    fittingDataMultiple indepParamsListMultiple saveFilename saveKey getpid.

Definition PowerLawFittingProblemMultipleCondition_init
    (complexityList : ComplexityList)
    (fittingDataMultiple : list FittingData)
    (indepParamsListMultiple : option (list (list (list IndepParam))))
    (saveFilename : option string) (saveKey : Z) (kwargs : Kwargs)
    (getpid : Z) : result MultiCond :=
  construct (fun fd ipl => PowerLawFittingProblem_init complexityList fd ipl kwargs)
    fittingDataMultiple indepParamsListMultiple saveFilename saveKey getpid.

Definition CTSNFittingProblemMultipleCondition_init
    (complexityList : ComplexityList)
    (fittingDataMultiple : list FittingData)
    (indepParamsListMultiple : option (list (list (list IndepParam))))
    (saveFilename : option string) (saveKey : Z) (kwargs : Kwargs)
    (getpid : Z) : result MultiCond :=
  construct (fun fd ipl => CTSNFittingProblem_init complexityList fd ipl kwargs)
    fittingDataMultiple indepParamsListMultiple saveFilename saveKey getpid.

(** ** The complexity sweep *)

(** Lines 87-89 for one condition: fit it, then read its cost and penalty for
    [name].  The [print] statements are left out. *)
Definition fitCondition (kwargs : Kwargs) (maxNumFit : nat) (name : string)
    : M FittingProblem (float * float) :=
  (sub_fitAll kwargs maxNumFit ;;;
   c <- gets sub_costDict ;;
   cost <- getitem c name ;;
   p <- gets sub_penaltyDict ;;
   penalty <- getitem p name ;;
   ret (cost, penalty))%py.

(** The loop over [self.fittingProblemList] inside one sweep step.  Every
    problem is fitted in place, so the ones already visited stay changed when
    a later one raises. *)
Fixpoint fitConditions (kwargs : Kwargs) (maxNumFit : nat) (name : string)
    (costMultiple penaltyMultiple : float) (fps : list FittingProblem)
    : list FittingProblem * result (float * float) :=
  match fps with
  | [] => ([], Ok (costMultiple, penaltyMultiple))
  | fittingProblem :: rest =>
      match fitCondition kwargs maxNumFit name fittingProblem with
      | (fittingProblem', Raise e) => (fittingProblem' :: rest, Raise e)
      | (fittingProblem', Ok (cost, penalty)) =>
          let '(rest', r) :=
            fitConditions kwargs maxNumFit name
              (costMultiple + cost)%float (penaltyMultiple + penalty)%float rest in
          (fittingProblem' :: rest', r)
      end
  end.

(** The same loop as a method of the aggregator. *)
Definition fitAllConditions (kwargs : Kwargs) (maxNumFit : nat) (name : string)
    : M MultiCond (float * float) :=
  fun self =>
    let '(fps', r) :=
      fitConditions kwargs maxNumFit name 0%float 0%float (fittingProblemList self) in
    (set_fittingProblemList fps' self, r).

(** Lines 99-102: record the totals under [name]. *)
Definition recordTotals (name : string) (costMultiple penaltyMultiple : float)
    : M MultiCond unit :=
  (modify (fun self => set_costDict (<[name := costMultiple]> (costDict self)) self) ;;;
   modify (fun self => set_penaltyDict (<[name := penaltyMultiple]> (penaltyDict self)) self) ;;;
   modify (fun self =>
     set_logLikelihoodDict
       (<[name := (- (costMultiple + penaltyMultiple))%float]> (logLikelihoodDict self))
       self) ;;;
   fps <- gets fittingProblemList ;;
   match fps with
   | [] => raise IndexError
   | f :: _ => modify (set_numParametersDict (sub_numParametersDict f))
   end)%py.

(** [orderedLs]: the recorded log-likelihoods in the order of
    [fittingModelNames]; names without an entry are skipped. *)
Definition orderedLs (self : MultiCond) : list float :=
  omap (fun n => logLikelihoodDict self !! n) (fittingModelNames self).

(** Lines 112-113: do the last [W] entries fall short of the best one? *)
Definition stoppingCheck (ls : list float) (W : Z) : result bool :=
  if Z.of_nat (length ls) >? W then
    match py_max (py_slice_from (- W) ls) with
    | None => Raise ValueError
    | Some recent =>
        match py_max ls with
        | None => Raise ValueError
        | Some best => Ok (PrimFloat.ltb recent best)
        end
    end
  else Ok false.

(** Lines 104-115.  The result [true] says that [return] was executed. *)
Definition checkDone : M MultiCond bool :=
  (w <- gets stopFittingN ;;
   match w with
   | None => modify (set_stopFittingN (Some 3))
   | Some _ => ret tt
   end ;;;
   ls <- gets orderedLs ;;
   w <- gets stopFittingN ;;
   match stoppingCheck ls (default 3 w) with
   | Raise e => raise e
   | Ok true => modify (set_fitAllDone true) ;;; ret true
   | Ok false => ret false
   end)%py.

(** One pass through the body of [for i,name in enumerate(...)]. *)
Definition fitAll_body (kwargs : Kwargs) (i : nat) (name : string)
    : M MultiCond bool :=
  (totals <- fitAllConditions kwargs (i + 1) name ;;
   recordTotals name totals.1 totals.2 ;;;
   checkDone)%py.

(** How the loop was left: the list was exhausted, [return] was executed at
    index [i], or an exception was raised at index [i]. *)
Inductive loopExit : Type :=
  | Exhausted
  | Returned (i : nat)
  | Raised (i : nat) (e : exn).

Fixpoint fitAll_loop (kwargs : Kwargs) (i : nat) (names : list string)
    (self : MultiCond) : MultiCond * loopExit :=
  match names with
  | [] => (self, Exhausted)
  | name :: rest =>
      match fitAll_body kwargs i name self with
      | (self', Raise e) => (self', Raised i e)
      | (self', Ok true) => (self', Returned i)
      | (self', Ok false) => fitAll_loop kwargs (S i) rest self'
      end
  end.

Definition fitAll (kwargs : Kwargs) : M MultiCond unit :=
  fun self =>
    match fitAll_loop kwargs 0 (fittingModelNames self) self with
    | (self', Exhausted) => (set_fitAllDone true self', Ok tt)
    | (self', Returned _) => (self', Ok tt)
    | (self', Raised _ e) => (self', Raise e)
    end.

(** ** Unsupported methods: each is [raise Exception, "Not implemented"]. *)

Definition numStiffSingVals (kwargs : Kwargs) : M MultiCond unit :=
  raise (Exception "Not implemented").
Definition _StiffSingVals (kwargs : Kwargs) : M MultiCond unit :=
  raise (Exception "Not implemented").
Definition _UpdateDicts (name : string) : M MultiCond unit :=
  raise (Exception "Not implemented").
Definition correlationWithPerfectModel (kwargs : Kwargs) : M MultiCond unit :=
  raise (Exception "Not implemented").
Definition outOfSampleCorrelation (kwargs : Kwargs) : M MultiCond unit :=
  raise (Exception "Not implemented").
Definition calculateAllOutOfSampleCorrelation (kwargs : Kwargs) : M MultiCond unit :=
  raise (Exception "Not implemented").
Definition _fixOldVersion : M MultiCond unit :=
  raise (Exception "Not implemented").

(** ** Best-model retrieval *)

(** [[ f.fittingModelDict[modelName] for f in self.fittingProblemList ]] *)
Fixpoint bestModelList (modelName : string) (fps : list FittingProblem)
    : result (list FittingModel) :=
  match fps with
  | [] => Ok []
  | f :: rest =>
      match sub_fittingModelDict f !! modelName with
      | None => Raise (KeyError modelName)
      | Some m =>
          match bestModelList modelName rest with
          | Raise e => Raise e
          | Ok ms => Ok (m :: ms)
          end
      end
  end.

Definition getBestModel (modelName : option string) (maxIndex : Z)
    (kwargs : Kwargs) : M MultiCond (list FittingModel) :=
  (modelName <- match modelName with
                | None => maxLogLikelihoodName maxIndex
                | Some n => ret n
                end ;;
   fps <- gets fittingProblemList ;;
   match bestModelList modelName fps with
   | Raise e => raise e
   | Ok l => ret l
   end)%py.

(** ** Notions used to state the properties *)

(** The stopping window in force during a sweep step: the attribute, or 3
    when the object has none. *)
Definition stoppingWindow (self : MultiCond) : Z := default 3 (stopFittingN self).

(** The state once the totals of [name] are written (lines 99-101). *)
Definition withTotals (name : string) (c p : float) (self : MultiCond) : MultiCond :=
  set_logLikelihoodDict (<[name := (- (c + p))%float]> (logLikelihoodDict self))
    (set_penaltyDict (<[name := p]> (penaltyDict self))
       (set_costDict (<[name := c]> (costDict self)) self)).

(** The number of names whose step ran to its end, read off the way the loop
    was left; [total] is the number of names. *)
Definition completedSteps (exit : loopExit) (total : nat) : nat :=
  match exit with
  | Exhausted => total
  | Returned i => S i
  | Raised i _ => i
  end.

(** The parameter lists in force: one [[[]]] per dataset when none is given. *)
Definition paramsInForce (fittingDataMultiple : list FittingData)
    (indepParamsListMultiple : option (list (list (list IndepParam))))
    : list (list (list IndepParam)) :=
  default (map (fun _ => [[]]) fittingDataMultiple) indepParamsListMultiple.

(** ** Facts about floats, [max] and slices *)

Lemma SFcompare_refl_not_Lt (x : spec_float) : SFcompare x x <> Some Lt.
Proof.
  destruct x as [s | s | | s m e]; simpl; try destruct s; try congruence;
    rewrite Z.compare_refl, Pos.compare_cont_refl; simpl; congruence.
Qed.

Lemma float_ltb_irrefl (x : float) : PrimFloat.ltb x x = false.
Proof.
  rewrite FloatAxioms.ltb_spec. unfold SFltb.
  pose proof (SFcompare_refl_not_Lt (Prim2SF x)) as H.
  destruct (SFcompare (Prim2SF x) (Prim2SF x)) as [[]|]; congruence.
Qed.

Lemma float_ltb_not_eqb (x y : float) :
  PrimFloat.ltb x y = true -> PrimFloat.eqb x y = false.
Proof.
  intros H. rewrite FloatAxioms.ltb_spec in H. rewrite FloatAxioms.eqb_spec.
  revert H. unfold SFltb, SFeqb.
  destruct (SFcompare (Prim2SF x) (Prim2SF y)) as [[]|]; congruence.
Qed.

Lemma py_slice_from_window {A} (W : Z) (l : list A) :
  0 < W -> py_slice_from (- W) l = lastn (Z.to_nat W) l.
Proof.
  intros HW. unfold py_slice_from, lastn.
  destruct (Z.ltb_spec (- W) 0) as [_|]; [|lia]. f_equal. lia.
Qed.

Lemma py_slice_from_zero {A} (l : list A) : py_slice_from 0 l = l.
Proof.
  unfold py_slice_from. simpl. rewrite Z.min_l by lia. reflexivity.
Qed.

Lemma lastn_zero {A} (l : list A) : lastn 0 l = [].
Proof. unfold lastn. rewrite Nat.sub_0_r. apply drop_all. Qed.

Lemma py_max_is_Some (l : list float) : l <> [] -> is_Some (py_max l).
Proof. destruct l; [congruence | simpl; eauto]. Qed.

(** For a window that is not negative the check never raises, and it says
    [true] exactly when there are more than [W] entries and the maximum of
    the last [W] is below the maximum of all. *)
Lemma stoppingCheck_spec (ls : list float) (W : Z) :
  0 <= W ->
  stoppingCheck ls W =
  Ok (bool_decide (Z.of_nat (length ls) > W) &&
      match py_max (lastn (Z.to_nat W) ls), py_max ls with
      | Some recent, Some best => PrimFloat.ltb recent best
      | _, _ => false
      end).
Proof.
  intros HW. unfold stoppingCheck.
  destruct (Z.gtb_spec (Z.of_nat (length ls)) W) as [Hlen | Hlen].
  - rewrite bool_decide_true by lia. simpl.
    assert (Hne : ls <> []) by (intros ->; simpl in Hlen; lia).
    destruct (py_max_is_Some ls Hne) as [best Hbest].
    destruct (Z.eq_dec W 0) as [-> | HW0].
    + simpl. rewrite py_slice_from_zero, Hbest, lastn_zero. simpl.
      by rewrite float_ltb_irrefl.
    + rewrite py_slice_from_window by lia. rewrite Hbest.
      assert (Hw : lastn (Z.to_nat W) ls <> []).
      { unfold lastn. intros H. apply (f_equal length) in H.
        rewrite length_drop in H. simpl in H. lia. }
      destruct (py_max_is_Some _ Hw) as [recent ->]. reflexivity.
  - rewrite bool_decide_false by lia. reflexivity.
Qed.

(** ** One sweep step, unfolded *)

Lemma recordTotals_spec (name : string) (c p : float) (self : MultiCond) :
  recordTotals name c p self =
  match fittingProblemList self with
  | [] => (withTotals name c p self, Raise IndexError)
  | f :: _ =>
      (set_numParametersDict (sub_numParametersDict f) (withTotals name c p self),
       Ok tt)
  end.
Proof.
  unfold recordTotals, bind, modify, gets, raise. simpl.
  destruct (fittingProblemList self); reflexivity.
Qed.

Lemma checkDone_spec (self : MultiCond) :
  checkDone self =
  let self1 := set_stopFittingN (Some (stoppingWindow self)) self in
  match stoppingCheck (orderedLs self) (stoppingWindow self) with
  | Raise e => (self1, Raise e)
  | Ok true => (set_fitAllDone true self1, Ok true)
  | Ok false => (self1, Ok false)
  end.
Proof.
  unfold checkDone, stoppingWindow, bind, modify, gets, raise, ret, orderedLs.
  destruct self as [? ? ? ? ? ? ? ? ? ? ? ? ? ? ? [w|]]; simpl;
    match goal with |- context [stoppingCheck ?l ?w] =>
      destruct (stoppingCheck l w) as [[]|] end; reflexivity.
Qed.

Lemma fitAll_body_spec (kwargs : Kwargs) (i : nat) (name : string) (self : MultiCond) :
  fitAll_body kwargs i name self =
  match fitConditions kwargs (i + 1) name 0%float 0%float (fittingProblemList self) with
  | (fps', Raise e) => (set_fittingProblemList fps' self, Raise e)
  | (fps', Ok (c, p)) =>
      match recordTotals name c p (set_fittingProblemList fps' self) with
      | (self2, Raise e) => (self2, Raise e)
      | (self2, Ok _) => checkDone self2
      end
  end.
Proof.
  unfold fitAll_body, bind, fitAllConditions.
  destruct (fitConditions _ _ _ _ _ _) as [fps' [[c p]|e]]; reflexivity.
Qed.

(** What a step that got as far as the stopping check looks like. *)
Lemma fitAll_body_checked (kwargs : Kwargs) (i : nat) (name : string)
    (self self' : MultiCond) (b : bool) :
  fitAll_body kwargs i name self = (self', Ok b) ->
  exists fps' c p f0 rest0,
    fitConditions kwargs (i + 1) name 0%float 0%float (fittingProblemList self)
      = (fps', Ok (c, p)) /\
    fps' = f0 :: rest0 /\
    let self2 := set_numParametersDict (sub_numParametersDict f0)
                   (withTotals name c p (set_fittingProblemList fps' self)) in
    stoppingCheck (orderedLs self2) (stoppingWindow self) = Ok b /\
    self' = (if b then set_fitAllDone true else id)
              (set_stopFittingN (Some (stoppingWindow self)) self2).
Proof.
  rewrite fitAll_body_spec.
  destruct (fitConditions _ _ _ _ _ _) as [fps' [[c p]|e]]; [|discriminate].
  rewrite recordTotals_spec. cbn [fittingProblemList set_fittingProblemList].
  destruct fps' as [|f0 rest0]; [discriminate|].
  rewrite checkDone_spec.
  set (self2 := set_numParametersDict _ _).
  assert (Hw : stoppingWindow self2 = stoppingWindow self) by reflexivity.
  rewrite Hw. cbv zeta.
  destruct (stoppingCheck _ _) as [[]|] eqn:Hc; intros [= <- <-];
    exists (f0 :: rest0), c, p, f0, rest0; repeat split; assumption.
Qed.

(** ** The loop over the conditions *)

Lemma fitCondition_Ok (kwargs : Kwargs) (k : nat) (name : string)
    (f f' : FittingProblem) (c p : float) :
  fitCondition kwargs k name f = (f', Ok (c, p)) <->
  sub_fitAll kwargs k f = (f', Ok tt) /\
  sub_costDict f' !! name = Some c /\ sub_penaltyDict f' !! name = Some p.
Proof.
  unfold fitCondition, bind, gets, getitem, ret, raise.
  destruct (sub_fitAll kwargs k f) as [f1 [[]|e]]; simpl.
  - destruct (sub_costDict f1 !! name) as [c1|] eqn:Hc; simpl.
    + destruct (sub_penaltyDict f1 !! name) as [p1|] eqn:Hp; simpl.
      * split.
        -- intros [= <- <- <-]. auto.
        -- intros ([= <-] & Hc' & Hp'). congruence.
      * split; [discriminate|]. intros ([= <-] & _ & Hp'). congruence.
    + split; [discriminate|]. intros ([= <-] & Hc' & _). congruence.
  - split; [discriminate|]. intros ([=] & _).
Qed.

(** When the loop succeeds, every condition was fitted without an exception,
    and the totals are the left-to-right sums of the costs and penalties that
    the fitted problems hold for [name]. *)
Lemma fitConditions_Ok (kwargs : Kwargs) (k : nat) (name : string)
    (fps : list FittingProblem) :
  forall (c0 p0 : float) (fps' : list FittingProblem) (c p : float),
  fitConditions kwargs k name c0 p0 fps = (fps', Ok (c, p)) ->
  Forall2 (fun f f' => sub_fitAll kwargs k f = (f', Ok tt)) fps fps' /\
  exists costs penalties,
    mapM (fun f => sub_costDict f !! name) fps' = Some costs /\
    mapM (fun f => sub_penaltyDict f !! name) fps' = Some penalties /\
    c = fold_left PrimFloat.add costs c0 /\
    p = fold_left PrimFloat.add penalties p0.
Proof.
  induction fps as [|f rest IH]; intros c0 p0 fps' c p; simpl.
  - intros [= <- <- <-]. split; [constructor|]. exists [], []. auto.
  - destruct (fitCondition kwargs k name f) as [f1 [[c1 p1]|e]] eqn:Hf;
      [|discriminate].
    destruct (fitConditions kwargs k name (c0 + c1)%float (p0 + p1)%float rest)
      as [rest' r] eqn:Hrest.
    intros [= <- ->].
    apply fitCondition_Ok in Hf as (Hfit & Hc & Hp).
    destruct (IH _ _ _ _ _ Hrest) as (Hall & costs & pens & Hcs & Hps & -> & ->).
    split; [constructor; assumption|].
    exists (c1 :: costs), (p1 :: pens). simpl.
    rewrite Hc, Hp. simpl. rewrite Hcs, Hps. auto.
Qed.

(** When the loop raises, some condition's fit or dictionary read raised
    that exception. *)
Lemma fitConditions_Raise (kwargs : Kwargs) (k : nat) (name : string)
    (fps : list FittingProblem) :
  forall (c0 p0 : float) (fps' : list FittingProblem) (e : exn),
  fitConditions kwargs k name c0 p0 fps = (fps', Raise e) ->
  exists f f', f ∈ fps /\ fitCondition kwargs k name f = (f', Raise e).
Proof.
  induction fps as [|f rest IH]; intros c0 p0 fps' e; simpl; [discriminate|].
  destruct (fitCondition kwargs k name f) as [f1 [[c1 p1]|e1]] eqn:Hf.
  - destruct (fitConditions kwargs k name (c0 + c1)%float (p0 + p1)%float rest)
      as [rest' r] eqn:Hrest.
    intros [= <- ->]. destruct (IH _ _ _ _ Hrest) as (g & g' & Hin & Hg).
    exists g, g'. split; [by apply list_elem_of_further | assumption].
  - intros [= <- <-]. exists f, f1. split; [by apply list_elem_of_here | assumption].
Qed.

(** The converse: a condition that raises makes the loop raise, provided the
    conditions before it went through. *)
Lemma fitConditions_first_Raise (kwargs : Kwargs) (k : nat) (name : string)
    (pre : list FittingProblem) :
  forall (c0 p0 : float) (f f' : FittingProblem) (post : list FittingProblem) (e : exn),
  Forall (fun g => exists g' cp, fitCondition kwargs k name g = (g', Ok cp)) pre ->
  fitCondition kwargs k name f = (f', Raise e) ->
  exists fps', fitConditions kwargs k name c0 p0 (pre ++ f :: post) = (fps', Raise e).
Proof.
  induction pre as [|g pre IH]; intros c0 p0 f f' post e Hpre Hf; simpl.
  - rewrite Hf. eauto.
  - inversion Hpre as [|? ? (g' & [c1 p1] & Hg) Hpre']; subst.
    rewrite Hg.
    destruct (IH (c0 + c1)%float (p0 + p1)%float f f' post e Hpre' Hf) as [fps' ->].
    eauto.
Qed.

Lemma fitCondition_fit_Raise (kwargs : Kwargs) (k : nat) (name : string)
    (f f' : FittingProblem) (e : exn) :
  sub_fitAll kwargs k f = (f', Raise e) ->
  fitCondition kwargs k name f = (f', Raise e).
Proof. intros H. unfold fitCondition, bind. by rewrite H. Qed.

(** ** What one sweep step does to the dictionaries *)

(** Either the loop over the conditions raised and the step left the three
    dictionaries alone, or it went through and the step wrote the totals of
    [name], whatever happened afterwards. *)
Lemma fitAll_body_dicts (kwargs : Kwargs) (i : nat) (name : string)
    (self self' : MultiCond) (r : result bool) :
  fitAll_body kwargs i name self = (self', r) ->
  fittingModelNames self' = fittingModelNames self /\
  ((exists fps' e,
      fitConditions kwargs (i + 1) name 0%float 0%float (fittingProblemList self)
        = (fps', Raise e) /\
      r = Raise e /\ self' = set_fittingProblemList fps' self)
   \/
   (exists fps' c p,
      fitConditions kwargs (i + 1) name 0%float 0%float (fittingProblemList self)
        = (fps', Ok (c, p)) /\
      fittingProblemList self' = fps' /\
      costDict self' = <[name := c]> (costDict self) /\
      penaltyDict self' = <[name := p]> (penaltyDict self) /\
      logLikelihoodDict self' = <[name := (- (c + p))%float]> (logLikelihoodDict self))).
Proof.
  rewrite fitAll_body_spec.
  destruct (fitConditions _ _ _ _ _ _) as [fps' [[c p]|e]] eqn:Hfc.
  - rewrite recordTotals_spec. cbn [fittingProblemList set_fittingProblemList].
    destruct fps' as [|f0 rest0].
    + intros [= <- <-]. split; [reflexivity|]. right. exists [], c, p. auto.
    + rewrite checkDone_spec. cbv zeta.
      destruct (stoppingCheck _ _) as [[]|]; intros [= <- <-];
        (split; [reflexivity|]); right; exists (f0 :: rest0), c, p; auto.
  - intros [= <- <-]. split; [reflexivity|]. left. eauto.
Qed.

(** A step writes under its own name only. *)
Lemma fitAll_body_other (kwargs : Kwargs) (i : nat) (name : string)
    (self self' : MultiCond) (r : result bool) (n : string) :
  fitAll_body kwargs i name self = (self', r) ->
  n <> name ->
  costDict self' !! n = costDict self !! n /\
  penaltyDict self' !! n = penaltyDict self !! n /\
  logLikelihoodDict self' !! n = logLikelihoodDict self !! n.
Proof.
  intros H Hn. apply fitAll_body_dicts in H as [_ [H | H]].
  - destruct H as (fps' & e & _ & _ & ->). auto.
  - destruct H as (fps' & c & p & _ & _ & -> & -> & ->).
    by rewrite !lookup_insert_ne.
Qed.

(** ** The stopping rule *)

(** The answer of a step that reached the stopping check, in terms of the
    state it leaves. *)
Lemma fitAll_body_answer (kwargs : Kwargs) (i : nat) (name : string)
    (self self' : MultiCond) (b : bool) :
  0 <= stoppingWindow self ->
  fitAll_body kwargs i name self = (self', Ok b) ->
  b = bool_decide (Z.of_nat (length (orderedLs self')) > stoppingWindow self) &&
      match py_max (lastn (Z.to_nat (stoppingWindow self)) (orderedLs self')),
            py_max (orderedLs self') with
      | Some recent, Some best => PrimFloat.ltb recent best
      | _, _ => false
      end /\
  fitAllDone self' = b || fitAllDone self.
Proof.
  intros HW Hbody.
  destruct (fitAll_body_checked _ _ _ _ _ _ Hbody)
    as (fps' & c & p & f0 & rest0 & _ & _ & Hcheck & Hself').
  cbv zeta in Hcheck, Hself'.
  assert (Hls : orderedLs self' =
                orderedLs (set_numParametersDict (sub_numParametersDict f0)
                   (withTotals name c p (set_fittingProblemList fps' self))))
    by (subst self'; destruct b; reflexivity).
  rewrite <- Hls in Hcheck. rewrite stoppingCheck_spec in Hcheck by exact HW.
  injection Hcheck as Hcheck. split; [by rewrite Hcheck|].
  subst self'. destruct b; reflexivity.
Qed.

(** C1. A sweep step executes [return] only when more than [W] names have a
    recorded log-likelihood and the maximum of the last [W] of them, in sweep
    order, is strictly below the maximum of all of them; then [fitAllDone] is
    set, the loop ends at this index whatever names follow, and no entry of
    another name is touched.  When the two maxima are the same float, or
    compare equal, the step does not return.  A step that goes on to the next
    name did not meet the condition. *)
Theorem fitAll_stopping_rule (kwargs : Kwargs) (i : nat) (name : string)
    (self self' : MultiCond) (r : result bool) :
  0 <= stoppingWindow self ->
  fitAll_body kwargs i name self = (self', r) ->
  let W := stoppingWindow self in
  let ls := orderedLs self' in
  let below :=
    exists recent best,
      py_max (lastn (Z.to_nat W) ls) = Some recent /\
      py_max ls = Some best /\
      PrimFloat.ltb recent best = true in
  (r = Ok true ->
     Z.of_nat (length ls) > W /\ below /\
     fitAllDone self' = true /\
     (forall rest, fitAll_loop kwargs i (name :: rest) self = (self', Returned i)) /\
     (forall n, n <> name ->
        costDict self' !! n = costDict self !! n /\
        penaltyDict self' !! n = penaltyDict self !! n /\
        logLikelihoodDict self' !! n = logLikelihoodDict self !! n)) /\
  (forall recent best,
     py_max (lastn (Z.to_nat W) ls) = Some recent ->
     py_max ls = Some best ->
     recent = best \/ PrimFloat.eqb recent best = true ->
     r <> Ok true) /\
  (r = Ok false -> ~ (Z.of_nat (length ls) > W /\ below)).
Proof.
  intros HW Hbody W ls below.
  assert (Hfire : r = Ok true -> Z.of_nat (length ls) > W /\ below /\ fitAllDone self' = true).
  { intros ->. destruct (fitAll_body_answer _ _ _ _ _ _ HW Hbody) as [Hb Hdone].
    symmetry in Hb. apply andb_true_iff in Hb as [Hlen Hlt].
    apply bool_decide_eq_true in Hlen. split; [exact Hlen|]. split; [|exact Hdone].
    unfold below. fold W ls in Hlt.
    destruct (py_max (lastn (Z.to_nat W) ls)) as [recent|]; [|discriminate].
    destruct (py_max ls) as [best|]; [|discriminate]. eauto. }
  split; [|split].
  - intros Hr. destruct (Hfire Hr) as (Hlen & Hmax & Hdone).
    repeat split; try assumption.
    + intros rest. simpl. rewrite Hbody, Hr. reflexivity.
    + eapply fitAll_body_other; eassumption.
    + eapply fitAll_body_other; eassumption.
    + eapply fitAll_body_other; eassumption.
  - intros recent best Hrecent Hbest Htie Hr.
    destruct (Hfire Hr) as (_ & (recent' & best' & Hr' & Hb' & Hlt) & _).
    rewrite Hrecent in Hr'. rewrite Hbest in Hb'.
    injection Hr' as <-. injection Hb' as <-.
    destruct Htie as [-> | Heq].
    + rewrite float_ltb_irrefl in Hlt. discriminate.
    + apply float_ltb_not_eqb in Hlt. congruence.
  - intros -> [Hlen (recent & best & Hrecent & Hbest & Hlt)].
    destruct (fitAll_body_answer _ _ _ _ _ _ HW Hbody) as [Hb _].
    fold W ls in Hb. rewrite Hrecent, Hbest, Hlt in Hb.
    rewrite bool_decide_true in Hb by exact Hlen. discriminate.
Qed.

(** ** The recorded aggregates *)

(** C2. After a sweep step that recorded [name], the conditions' costs and
    penalties for [name] can all be read, one per condition; the cost stored
    for [name] is their sum from [0.] in condition order, likewise the
    penalty, and the log-likelihood is the negation of the sum of the two
    totals. *)
Theorem fitAll_step_aggregates (kwargs : Kwargs) (i : nat) (name : string)
    (self self' : MultiCond) (b : bool) :
  fitAll_body kwargs i name self = (self', Ok b) ->
  exists costs penalties : list float,
    mapM (fun f => sub_costDict f !! name) (fittingProblemList self') = Some costs /\
    mapM (fun f => sub_penaltyDict f !! name) (fittingProblemList self') = Some penalties /\
    length costs = length (fittingProblemList self) /\
    length penalties = length (fittingProblemList self) /\
    (1 <= length (fittingProblemList self))%nat /\
    let costMultiple := fold_left PrimFloat.add costs 0%float in
    let penaltyMultiple := fold_left PrimFloat.add penalties 0%float in
    costDict self' !! name = Some costMultiple /\
    penaltyDict self' !! name = Some penaltyMultiple /\
    logLikelihoodDict self' !! name = Some (- (costMultiple + penaltyMultiple))%float.
Proof.
  intros Hbody.
  destruct (fitAll_body_checked _ _ _ _ _ _ Hbody)
    as (fps' & c & p & f0 & rest0 & Hfc & Hfps & _ & _).
  destruct (fitAll_body_dicts _ _ _ _ _ _ Hbody) as [_ [H | H]].
  { destruct H as (? & ? & _ & [=] & _). }
  destruct H as (fps1 & c1 & p1 & Hfc1 & Hl & Hcost & Hpen & Hll).
  rewrite Hfc in Hfc1. injection Hfc1 as <- <- <-.
  destruct (fitConditions_Ok _ _ _ _ _ _ _ _ _ Hfc)
    as (Hall & costs & pens & Hcs & Hps & -> & ->).
  exists costs, pens. rewrite Hl, Hcost, Hpen, Hll.
  pose proof (Forall2_length _ _ _ Hall) as Hlen.
  pose proof (length_mapM _ _ _ Hcs) as Hlc.
  pose proof (length_mapM _ _ _ Hps) as Hlp.
  repeat split; try assumption; try congruence.
  - rewrite Hlen, Hfps. simpl. lia.
  - apply lookup_insert_eq.
  - apply lookup_insert_eq.
  - apply lookup_insert_eq.
Qed.

(** ** A fit that raises *)

(** C3. When the fit of a condition raises during a sweep step, the conditions
    before it having gone through, the step raises the same exception, leaves
    the cost, penalty and log-likelihood dictionaries as they were, and ends
    the loop.  And a step after which [name] has an entry it did not have
    before is one in which the fit of every condition returned normally. *)
Theorem fitAll_failed_fit_records_nothing (kwargs : Kwargs) (i : nat)
    (name : string) (self : MultiCond) :
  (forall pre f f' post e,
     fittingProblemList self = pre ++ f :: post ->
     Forall (fun g => exists g' cp,
               fitCondition kwargs (i + 1) name g = (g', Ok cp)) pre ->
     sub_fitAll kwargs (i + 1) f = (f', Raise e) ->
     exists self',
       fitAll_body kwargs i name self = (self', Raise e) /\
       costDict self' = costDict self /\
       penaltyDict self' = penaltyDict self /\
       logLikelihoodDict self' = logLikelihoodDict self /\
       forall rest, fitAll_loop kwargs i (name :: rest) self = (self', Raised i e)) /\
  (forall self' r,
     fitAll_body kwargs i name self = (self', r) ->
     (costDict self !! name = None /\ is_Some (costDict self' !! name)) \/
     (penaltyDict self !! name = None /\ is_Some (penaltyDict self' !! name)) \/
     (logLikelihoodDict self !! name = None /\
      is_Some (logLikelihoodDict self' !! name)) ->
     Forall2 (fun f f' => sub_fitAll kwargs (i + 1) f = (f', Ok tt))
       (fittingProblemList self) (fittingProblemList self')).
Proof.
  split.
  - intros pre f f' post e Hlist Hpre Hfit.
    apply (fitCondition_fit_Raise _ _ name) in Hfit.
    destruct (fitConditions_first_Raise kwargs (i + 1) name pre 0%float 0%float
                f f' post e Hpre Hfit) as [fps' Hfc].
    rewrite <- Hlist in Hfc.
    assert (Hbody : fitAll_body kwargs i name self
                    = (set_fittingProblemList fps' self, Raise e)).
    { rewrite fitAll_body_spec, Hfc. reflexivity. }
    exists (set_fittingProblemList fps' self). repeat split; try assumption.
    intros rest. simpl. rewrite Hbody. reflexivity.
  - intros self' r Hbody Hnew.
    destruct (fitAll_body_dicts _ _ _ _ _ _ Hbody) as [_ [H | H]].
    + destruct H as (fps' & e & _ & _ & ->). exfalso.
      cbn [costDict penaltyDict logLikelihoodDict set_fittingProblemList] in Hnew.
      destruct Hnew as [[H1 [? H2]] | [[H1 [? H2]] | [H1 [? H2]]]]; congruence.
    + destruct H as (fps' & c & p & Hfc & <- & _).
      by destruct (fitConditions_Ok _ _ _ _ _ _ _ _ _ Hfc) as [Hall _].
Qed.

(** ** The loop over the model names *)

(** A step changes neither the list of names nor the window. *)
Lemma fitAll_body_frame (kwargs : Kwargs) (i : nat) (name : string)
    (self self' : MultiCond) (r : result bool) :
  fitAll_body kwargs i name self = (self', r) ->
  fittingModelNames self' = fittingModelNames self /\
  stoppingWindow self' = stoppingWindow self.
Proof.
  rewrite fitAll_body_spec.
  destruct (fitConditions _ _ _ _ _ _) as [fps' [[c p]|e]].
  - rewrite recordTotals_spec. cbn [fittingProblemList set_fittingProblemList].
    destruct fps' as [|f0 rest0].
    + intros [= <- <-]. split; reflexivity.
    + rewrite checkDone_spec. cbv zeta.
      destruct (stoppingCheck _ _) as [[]|]; intros [= <- <-]; split; reflexivity.
  - intros [= <- <-]. split; reflexivity.
Qed.

Lemma length_orderedLs (self : MultiCond) :
  (length (orderedLs self) <= length (fittingModelNames self))%nat.
Proof.
  unfold orderedLs.
  generalize (fun n : string => logLikelihoodDict self !! n). intros f.
  induction (fittingModelNames self) as [|n l IH]; csimpl; [lia|].
  destruct (f n); simpl; lia.
Qed.

(** With no more names than the window, a step never executes [return]. *)
Lemma fitAll_body_short (kwargs : Kwargs) (i : nat) (name : string)
    (self self' : MultiCond) (r : result bool) :
  Z.of_nat (length (fittingModelNames self)) <= stoppingWindow self ->
  fitAll_body kwargs i name self = (self', r) ->
  r <> Ok true.
Proof.
  intros Hshort Hbody ->.
  destruct (fitAll_body_checked _ _ _ _ _ _ Hbody)
    as (fps' & c & p & f0 & rest0 & _ & _ & Hcheck & _).
  cbv zeta in Hcheck. unfold stoppingCheck in Hcheck.
  match type of Hcheck with context [orderedLs ?s] =>
    pose proof (length_orderedLs s) as Hlen;
    change (fittingModelNames s) with (fittingModelNames self) in Hlen end.
  destruct (Z.gtb_spec (Z.of_nat (length (orderedLs
     (set_numParametersDict (sub_numParametersDict f0)
        (withTotals name c p (set_fittingProblemList fps' self))))))
     (stoppingWindow self)) as [Hgt|_]; [lia | discriminate].
Qed.

(** A step that returns a boolean has recorded its name. *)
Lemma fitAll_body_recorded (kwargs : Kwargs) (i : nat) (name : string)
    (self self' : MultiCond) (b : bool) :
  fitAll_body kwargs i name self = (self', Ok b) ->
  is_Some (costDict self' !! name) /\
  is_Some (penaltyDict self' !! name) /\
  is_Some (logLikelihoodDict self' !! name).
Proof.
  intros H. apply fitAll_body_dicts in H as [_ [H | H]].
  - destruct H as (? & ? & _ & [=] & _).
  - destruct H as (fps' & c & p & _ & _ & -> & -> & ->).
    rewrite !lookup_insert_eq. eauto.
Qed.

(** The loop only writes under names it visits. *)
Lemma fitAll_loop_other (kwargs : Kwargs) (names : list string) :
  forall (i : nat) (self self' : MultiCond) (exit : loopExit) (n : string),
  fitAll_loop kwargs i names self = (self', exit) ->
  n ∉ names ->
  costDict self' !! n = costDict self !! n /\
  penaltyDict self' !! n = penaltyDict self !! n /\
  logLikelihoodDict self' !! n = logLikelihoodDict self !! n.
Proof.
  induction names as [|name rest IH]; intros i self self' exit n; simpl.
  - intros [= <- <-] _. auto.
  - intros Hloop Hn. apply not_elem_of_cons in Hn as [Hne Hrest].
    destruct (fitAll_body kwargs i name self) as [s1 [[]|e]] eqn:Hbody;
      try (injection Hloop as <- <-; by eapply fitAll_body_other).
    destruct (fitAll_body_other _ _ _ _ _ _ n Hbody Hne) as (<- & <- & <-).
    by eapply IH.
Qed.

(** Entries are never removed. *)
Lemma fitAll_loop_keeps (kwargs : Kwargs) (names : list string) :
  forall (i : nat) (self self' : MultiCond) (exit : loopExit) (n : string),
  fitAll_loop kwargs i names self = (self', exit) ->
  (is_Some (costDict self !! n) -> is_Some (costDict self' !! n)) /\
  (is_Some (penaltyDict self !! n) -> is_Some (penaltyDict self' !! n)) /\
  (is_Some (logLikelihoodDict self !! n) -> is_Some (logLikelihoodDict self' !! n)).
Proof.
  assert (Hstep : forall i name self self' r n,
    fitAll_body kwargs i name self = (self', r) ->
    (is_Some (costDict self !! n) -> is_Some (costDict self' !! n)) /\
    (is_Some (penaltyDict self !! n) -> is_Some (penaltyDict self' !! n)) /\
    (is_Some (logLikelihoodDict self !! n) -> is_Some (logLikelihoodDict self' !! n))).
  { intros i name self self' r n H.
    apply fitAll_body_dicts in H as [_ [H | H]].
    - destruct H as (fps' & e & _ & _ & ->). auto.
    - destruct H as (fps' & c & p & _ & _ & -> & -> & ->).
      repeat split; intros Hs; rewrite lookup_insert; case_decide; eauto. }
  induction names as [|name rest IH]; intros i self self' exit n; simpl.
  - intros [= <- <-]. auto.
  - intros Hloop.
    destruct (fitAll_body kwargs i name self) as [s1 [[]|e]] eqn:Hbody;
      try (injection Hloop as <- <-; by eapply Hstep).
    destruct (Hstep _ _ _ _ _ n Hbody) as (H1 & H2 & H3).
    destruct (IH _ _ _ _ n Hloop) as (G1 & G2 & G3). auto.
Qed.

(** Running the loop over a list cut in two. *)
Lemma fitAll_loop_app (kwargs : Kwargs) (l1 l2 : list string) :
  forall (i : nat) (self : MultiCond),
  fitAll_loop kwargs i (l1 ++ l2) self =
  match fitAll_loop kwargs i l1 self with
  | (s1, Exhausted) => fitAll_loop kwargs (i + length l1) l2 s1
  | other => other
  end.
Proof.
  induction l1 as [|name rest IH]; intros i self; simpl.
  - by rewrite Nat.add_0_r.
  - destruct (fitAll_body kwargs i name self) as [s1 [[]|e]]; try reflexivity.
    rewrite IH. by replace (S i + length rest)%nat with (i + S (length rest))%nat by lia.
Qed.

Lemma fitAll_loop_short (kwargs : Kwargs) (names : list string) :
  forall (i : nat) (self s1 : MultiCond) (exit : loopExit),
  Z.of_nat (length (fittingModelNames self)) <= stoppingWindow self ->
  fitAll_loop kwargs i names self = (s1, exit) ->
  (forall j, exit <> Returned j) /\
  (exit = Exhausted ->
   forall n, n ∈ names ->
     is_Some (costDict s1 !! n) /\ is_Some (penaltyDict s1 !! n) /\
     is_Some (logLikelihoodDict s1 !! n)).
Proof.
  induction names as [|name rest IH]; intros i self s1 exit Hshort; simpl.
  - intros [= <- <-]. split; [discriminate|]. intros _ n Hn. by apply elem_of_nil in Hn.
  - destruct (fitAll_body kwargs i name self) as [s' [[]|e]] eqn:Hbody.
    + by destruct (fitAll_body_short _ _ _ _ _ _ Hshort Hbody).
    + intros Hloop.
      destruct (fitAll_body_frame _ _ _ _ _ _ Hbody) as [Hn Hw].
      assert (Hshort' : Z.of_nat (length (fittingModelNames s')) <= stoppingWindow s')
        by (rewrite Hn, Hw; exact Hshort).
      destruct (IH _ _ _ _ Hshort' Hloop) as [Hnr Hall].
      split; [exact Hnr|]. intros Hex n Hin.
      apply elem_of_cons in Hin as [-> | Hin]; [|by apply Hall].
      destruct (fitAll_body_recorded _ _ _ _ _ _ Hbody) as (H1 & H2 & H3).
      destruct (fitAll_loop_keeps _ _ _ _ _ _ name Hloop) as (G1 & G2 & G3). auto.
    + intros [= <- <-]. split; discriminate.
Qed.

(** C6. With no more candidate names than the stopping window, no sweep step
    ever executes the early [return], from whatever index and state the loop
    is run; and a [fitAll] that returns has gone through the whole list, has
    an entry for every name in the three dictionaries, and has set
    [fitAllDone]. *)
Theorem fitAll_short_list_completes (kwargs : Kwargs) (self : MultiCond) :
  Z.of_nat (length (fittingModelNames self)) <= stoppingWindow self ->
  (forall i names s1 j, fitAll_loop kwargs i names self <> (s1, Returned j)) /\
  (forall self', fitAll kwargs self = (self', Ok tt) ->
     (exists s1,
        fitAll_loop kwargs 0 (fittingModelNames self) self = (s1, Exhausted) /\
        self' = set_fitAllDone true s1) /\
     fitAllDone self' = true /\
     forall n, n ∈ fittingModelNames self ->
       is_Some (costDict self' !! n) /\ is_Some (penaltyDict self' !! n) /\
       is_Some (logLikelihoodDict self' !! n)).
Proof.
  intros Hshort. split.
  - intros i names s1 j Hloop.
    destruct (fitAll_loop_short _ _ _ _ _ _ Hshort Hloop) as [Hnr _].
    by apply (Hnr j).
  - intros self'. unfold fitAll.
    destruct (fitAll_loop kwargs 0 (fittingModelNames self) self) as [s1 exit] eqn:Hloop.
    destruct (fitAll_loop_short _ _ _ _ _ _ Hshort Hloop) as [Hnr Hall].
    destruct exit as [|j|j e].
    + intros [= <-]. split; [eauto|]. split; [reflexivity|]. by apply Hall.
    + by destruct (Hnr j).
    + discriminate.
Qed.

(** The names recorded by a loop that did not raise: those it started with
    and the first [k] of its list, [k] being the number of completed steps. *)
Lemma fitAll_loop_dom (kwargs : Kwargs) (names : list string) :
  forall (i : nat) (self s1 : MultiCond) (exit : loopExit),
  fitAll_loop kwargs i names self = (s1, exit) ->
  (forall j e, exit <> Raised j e) ->
  exists k : nat,
    (k <= length names)%nat /\
    completedSteps exit (i + length names) = (i + k)%nat /\
    (forall j, exit = Returned j -> fitAllDone s1 = true) /\
    dom (costDict s1) = dom (costDict self) ∪ list_to_set (take k names) /\
    dom (penaltyDict s1) = dom (penaltyDict self) ∪ list_to_set (take k names) /\
    dom (logLikelihoodDict s1) =
      dom (logLikelihoodDict self) ∪ list_to_set (take k names).
Proof.
  induction names as [|name rest IH]; intros i self s1 exit; simpl.
  - intros [= <- <-] _. exists 0%nat. simpl.
    repeat split; try lia; try discriminate; by rewrite (right_id_L ∅ (∪)).
  - destruct (fitAll_body kwargs i name self) as [s' [b|e]] eqn:Hbody.
    + assert (Hdom : dom (costDict s') = {[name]} ∪ dom (costDict self) /\
                     dom (penaltyDict s') = {[name]} ∪ dom (penaltyDict self) /\
                     dom (logLikelihoodDict s') = {[name]} ∪ dom (logLikelihoodDict self)).
      { destruct (fitAll_body_dicts _ _ _ _ _ _ Hbody) as [_ [H | H]].
        - destruct H as (? & ? & _ & [=] & _).
        - destruct H as (fps' & c & p & _ & _ & -> & -> & ->).
          by rewrite !dom_insert_L. }
      destruct Hdom as (D1 & D2 & D3). destruct b.
      * intros [= <- <-] _. exists 1%nat. simpl.
        repeat split; try lia.
        -- intros j _.
           destruct (fitAll_body_checked _ _ _ _ _ _ Hbody)
             as (? & ? & ? & ? & ? & _ & _ & _ & ->). reflexivity.
        -- rewrite D1. set_unfold. intros x. tauto.
        -- rewrite D2. set_unfold. intros x. tauto.
        -- rewrite D3. set_unfold. intros x. tauto.
      * intros Hloop Hnr.
        destruct (IH _ _ _ _ Hloop Hnr) as (k & Hk & Hsteps & Hdone & E1 & E2 & E3).
        exists (S k). simpl. repeat split; try lia; try assumption.
        -- replace (i + S (length rest))%nat with (S i + length rest)%nat by lia.
           rewrite Hsteps. lia.
        -- rewrite E1, D1. set_unfold. intros x. tauto.
        -- rewrite E2, D2. set_unfold. intros x. tauto.
        -- rewrite E3, D3. set_unfold. intros x. tauto.
    + intros [= <- <-] Hnr. by destruct (Hnr i e).
Qed.

(** ** What a run leaves in the dictionaries *)

(** C9, as the code has it.  [fitAll] never clears the dictionaries, so what
    a run leaves depends on what it found.  A run that ends by the early
    [return] or by exhausting the list leaves, in each of the three
    dictionaries, the names that were there before together with exactly the
    first [k] candidate names, [k] the number of completed steps; started
    from an empty dictionary it leaves exactly those [k] names.  When it
    ended by [return] at index [i], the name at index [i] is recorded, and
    [fitAllDone] is set.  No run, however it ends, removes an entry.  And the
    entries a step writes are still there, unchanged, when the loop ends,
    provided the step's name does not come again later in the list. *)
Theorem fitAll_records_prefix (kwargs : Kwargs) (self : MultiCond) :
  let names := fittingModelNames self in
  (forall s1 exit,
     fitAll_loop kwargs 0 names self = (s1, exit) ->
     (forall j e, exit <> Raised j e) ->
     let k := completedSteps exit (length names) in
     let final := (fitAll kwargs self).1 in
     (k <= length names)%nat /\
     dom (costDict final) = dom (costDict self) ∪ list_to_set (take k names) /\
     dom (penaltyDict final) = dom (penaltyDict self) ∪ list_to_set (take k names) /\
     dom (logLikelihoodDict final)
       = dom (logLikelihoodDict self) ∪ list_to_set (take k names) /\
     (costDict self = ∅ -> dom (costDict final) = list_to_set (take k names)) /\
     (penaltyDict self = ∅ -> dom (penaltyDict final) = list_to_set (take k names)) /\
     (logLikelihoodDict self = ∅ ->
      dom (logLikelihoodDict final) = list_to_set (take k names)) /\
     fitAllDone final = true /\
     (forall i, exit = Returned i ->
        exists name, names !! i = Some name /\
          is_Some (costDict final !! name) /\
          is_Some (penaltyDict final !! name) /\
          is_Some (logLikelihoodDict final !! name))) /\
  (forall n,
     (is_Some (costDict self !! n) -> is_Some (costDict (fitAll kwargs self).1 !! n)) /\
     (is_Some (penaltyDict self !! n) ->
      is_Some (penaltyDict (fitAll kwargs self).1 !! n)) /\
     (is_Some (logLikelihoodDict self !! n) ->
      is_Some (logLikelihoodDict (fitAll kwargs self).1 !! n))) /\
  (forall pre name post s1 s2 sF exit,
     names = pre ++ name :: post ->
     name ∉ post ->
     fitAll_loop kwargs 0 pre self = (s1, Exhausted) ->
     fitAll_body kwargs (length pre) name s1 = (s2, Ok false) ->
     fitAll_loop kwargs (S (length pre)) post s2 = (sF, exit) ->
     fitAll_loop kwargs 0 names self = (sF, exit) /\
     costDict sF !! name = costDict s2 !! name /\
     penaltyDict sF !! name = penaltyDict s2 !! name /\
     logLikelihoodDict sF !! name = logLikelihoodDict s2 !! name).
Proof.
  intros names.
  assert (Hfinal : forall s1 exit,
    fitAll_loop kwargs 0 names self = (s1, exit) ->
    costDict (fitAll kwargs self).1 = costDict s1 /\
    penaltyDict (fitAll kwargs self).1 = penaltyDict s1 /\
    logLikelihoodDict (fitAll kwargs self).1 = logLikelihoodDict s1).
  { intros s1 exit Hloop. unfold fitAll. fold names. rewrite Hloop.
    by destruct exit. }
  split; [|split].
  - intros s1 exit Hloop Hnr k final.
    destruct (fitAll_loop_dom _ _ _ _ _ _ Hloop Hnr)
      as (k' & Hk & Hsteps & Hdone & E1 & E2 & E3).
    simpl in Hsteps. fold names in Hsteps. fold k in Hsteps. subst k'.
    destruct (Hfinal _ _ Hloop) as (F1 & F2 & F3).
    assert (Hfd : fitAllDone final = true).
    { subst final. unfold fitAll. fold names. rewrite Hloop.
      destruct exit as [|j|j e]; simpl; eauto. by destruct (Hnr j e). }
    subst final. rewrite F1, F2, F3.
    split; [exact Hk|]. split; [exact E1|]. split; [exact E2|]. split; [exact E3|].
    split; [intros H0; by rewrite E1, H0, dom_empty_L, (left_id_L ∅ (∪))|].
    split; [intros H0; by rewrite E2, H0, dom_empty_L, (left_id_L ∅ (∪))|].
    split; [intros H0; by rewrite E3, H0, dom_empty_L, (left_id_L ∅ (∪))|].
    split; [exact Hfd|].
    intros i ->. simpl in k.
    destruct (lookup_lt_is_Some_2 names i) as [name Hname]; [lia|].
    exists name. split; [exact Hname|].
    assert (Hin : name ∈ (list_to_set (take k names) : gset string)).
    { apply elem_of_list_to_set, list_elem_of_lookup. exists i.
      rewrite lookup_take_lt by (subst k; lia). exact Hname. }
    rewrite <- !elem_of_dom, E1, E2, E3.
    repeat split; apply elem_of_union_r, Hin.
  - intros n.
    destruct (fitAll_loop kwargs 0 names self) as [s1 exit] eqn:Hloop.
    destruct (Hfinal _ _ eq_refl) as (-> & -> & ->).
    by eapply fitAll_loop_keeps.
  - intros pre name post s1 s2 sF exit Hnames Hnotin Hpre Hbody Hpost.
    split.
    + rewrite Hnames, fitAll_loop_app, Hpre. simpl. rewrite Hbody. exact Hpost.
    + by eapply fitAll_loop_other.
Qed.

(** ** Construction and shared setup *)

Lemma build_fittingProblemList_Ok
    (ctor : FittingData -> list (list IndepParam) -> result FittingProblem)
    (pairs : list (FittingData * list (list IndepParam))) :
  forall fps,
  build_fittingProblemList ctor pairs = Ok fps <->
  Forall2 (fun pr f => ctor pr.1 pr.2 = Ok f) pairs fps.
Proof.
  induction pairs as [|[fd ipl] rest IH]; intros fps; simpl.
  - split.
    + intros [= <-]. constructor.
    + intros H. by inversion H.
  - destruct (ctor fd ipl) as [f|e] eqn:Hf.
    + destruct (build_fittingProblemList ctor rest) as [fs|e] eqn:Hrest.
      * split.
        -- intros [= <-]. constructor; [exact Hf | by apply IH].
        -- intros H. inversion H as [|? ? ? ? Hf' Hrest']; subst. simpl in Hf'.
           apply IH in Hrest'. congruence.
      * split; [discriminate|].
        intros H. inversion H as [|? ? ? ? _ Hrest']; subst.
        apply IH in Hrest'. discriminate.
    + split; [discriminate|].
      intros H. inversion H as [|? ? ? ? Hf' _]; subst. simpl in Hf'. congruence.
Qed.

(** What the shared body of the constructors does. *)
Lemma construct_spec
    (ctor : FittingData -> list (list IndepParam) -> result FittingProblem)
    (data : list FittingData)
    (params : option (list (list (list IndepParam))))
    (sf : option string) (sk getpid : Z) :
  let params' := paramsInForce data params in
  (forall self,
     construct ctor data params sf sk getpid = Ok self ->
     length (fittingProblemList self) = Nat.min (length data) (length params') /\
     (1 <= length (fittingProblemList self))%nat /\
     forall i f, fittingProblemList self !! i = Some f ->
       exists fd ipl, data !! i = Some fd /\ params' !! i = Some ipl /\
                      ctor fd ipl = Ok f) /\
  (Nat.min (length data) (length params') = 0%nat ->
   construct ctor data params sf sk getpid = Raise IndexError) /\
  (forall fps f0 w,
     Forall2 (fun pr f => ctor pr.1 pr.2 = Ok f) (zip data params') fps ->
     fps !! 0%nat = Some f0 ->
     sub_stopFittingN f0 = Some w ->
     exists self,
       construct ctor data params sf sk getpid = Ok self /\
       fittingProblemList self = fps /\
       length (fittingProblemList self) = Nat.min (length data) (length params')).
Proof.
  intros params'.
  assert (Hc : construct ctor data params sf sk getpid =
               match build_fittingProblemList ctor (zip data params') with
               | Raise e => Raise e
               | Ok fps => generalSetup fps sf sk getpid
               end).
  { unfold construct, params', paramsInForce. by destruct params. }
  split; [|split].
  - intros self. rewrite Hc.
    destruct (build_fittingProblemList ctor (zip data params')) as [fps|e] eqn:Hb;
      [|discriminate].
    apply build_fittingProblemList_Ok in Hb.
    unfold generalSetup. destruct fps as [|f0 rest0]; [discriminate|].
    destruct (sub_stopFittingN f0) as [w|]; [|discriminate].
    intros [= <-]. cbn [fittingProblemList].
    pose proof (Forall2_length _ _ _ Hb) as Hlen.
    rewrite length_zip_with in Hlen.
    split; [symmetry; exact Hlen|]. split; [simpl; lia|].
    intros i f Hi.
    destruct (Forall2_lookup_r _ _ _ _ _ Hb Hi) as ([fd ipl] & Hz & Hf).
    apply lookup_zip_with_Some in Hz as (fd' & ipl' & [= -> ->] & Hd & Hp).
    eauto.
  - intros Hmin. rewrite Hc.
    assert (Hz : zip data params' = []).
    { apply length_zero_iff_nil. by rewrite length_zip_with. }
    rewrite Hz. reflexivity.
  - intros fps f0 w Hall H0 Hw. rewrite Hc.
    pose proof (Forall2_length _ _ _ Hall) as Hlen. rewrite length_zip_with in Hlen.
    apply build_fittingProblemList_Ok in Hall. rewrite Hall.
    unfold generalSetup. destruct fps as [|f rest0]; [discriminate|].
    injection H0 as ->. rewrite Hw.
    eexists. split; [reflexivity|]. split; [reflexivity|]. symmetry; exact Hlen.
Qed.

(** C4, as the code has it. The constructors pair the i-th dataset with the
    i-th parameter list and stop at the shorter sequence.  A construction
    that succeeds holds as many problems as the shorter sequence has entries,
    at least one, the i-th built from the i-th pair; it succeeds whenever the
    engine builds every pair and the first problem carries a stopping window,
    whatever the two lengths; and when the shorter sequence is empty it
    raises [IndexError].  Stated for the base class and for the power-law
    family. *)
Theorem init_pairs_up_to_shorter
    (fittingModelList : list FittingModel) (complexityList : ComplexityList)
    (data : list FittingData)
    (params : option (list (list (list IndepParam))))
    (sf : option string) (sk : Z) (kwargs : Kwargs) (getpid : Z) :
  let params' := paramsInForce data params in
  let base := fun fd ipl => FittingProblem_init fd fittingModelList ipl kwargs in
  let power := fun fd ipl => PowerLawFittingProblem_init complexityList fd ipl kwargs in
  let claim := fun ctor (made : result MultiCond) =>
    (forall self,
       made = Ok self ->
       length (fittingProblemList self) = Nat.min (length data) (length params') /\
       (1 <= length (fittingProblemList self))%nat /\
       forall i f, fittingProblemList self !! i = Some f ->
         exists fd ipl, data !! i = Some fd /\ params' !! i = Some ipl /\
                        ctor fd ipl = Ok f) /\
    (Nat.min (length data) (length params') = 0%nat -> made = Raise IndexError) /\
    (forall fps (f0 : FittingProblem) w,
       Forall2 (fun pr f => ctor pr.1 pr.2 = Ok f) (zip data params') fps ->
       fps !! 0%nat = Some f0 ->
       sub_stopFittingN f0 = Some w ->
       exists self,
         made = Ok self /\ fittingProblemList self = fps /\
         length (fittingProblemList self) = Nat.min (length data) (length params')) in
  claim base
    (FittingProblemMultipleCondition_init data fittingModelList params sf sk kwargs getpid) /\
  claim power
    (PowerLawFittingProblemMultipleCondition_init complexityList data params sf sk
       kwargs getpid).
Proof.
  cbv zeta. split; apply construct_spec.
Qed.

(** C5, as the code has it. [generalSetup] copies the stopping window of the
    first fitting problem; when the first problem has no such attribute it
    raises [AttributeError].  The default of 3 belongs to [fitAll]: a sweep
    step on an aggregator without the attribute sets it to 3 and checks
    against 3. *)
Theorem generalSetup_stopFittingN (f : FittingProblem) (rest : list FittingProblem)
    (sf : option string) (sk getpid : Z) :
  (forall w, sub_stopFittingN f = Some w ->
     exists self, generalSetup (f :: rest) sf sk getpid = Ok self /\
                  stopFittingN self = Some w) /\
  (sub_stopFittingN f = None ->
     generalSetup (f :: rest) sf sk getpid = Raise (AttributeError "stopFittingN")) /\
  (forall kwargs i name self self' b,
     stopFittingN self = None ->
     fitAll_body kwargs i name self = (self', Ok b) ->
     stoppingWindow self = 3 /\ stopFittingN self' = Some 3).
Proof.
  split; [|split].
  - intros w Hw. unfold generalSetup. rewrite Hw. eauto.
  - intros Hw. unfold generalSetup. by rewrite Hw.
  - intros kwargs i name self self' b Hnone Hbody.
    assert (Hw : stoppingWindow self = 3) by (unfold stoppingWindow; by rewrite Hnone).
    split; [exact Hw|].
    destruct (fitAll_body_checked _ _ _ _ _ _ Hbody)
      as (? & ? & ? & ? & ? & _ & _ & _ & ->).
    rewrite Hw. by destruct b.
Qed.

(** ** Unsupported methods *)

(** C7. Each unsupported method raises [Exception("Not implemented")] for
    every argument and returns the object as it found it, so its
    dictionaries and [fitAllDone] are untouched. *)
Theorem unsupported_methods_raise (kwargs : Kwargs) (name : string) (self : MultiCond) :
  let refused := (self, Raise (Exception "Not implemented")) in
  numStiffSingVals kwargs self = refused /\
  _StiffSingVals kwargs self = refused /\
  _UpdateDicts name self = refused /\
  correlationWithPerfectModel kwargs self = refused /\
  outOfSampleCorrelation kwargs self = refused /\
  calculateAllOutOfSampleCorrelation kwargs self = refused /\
  _fixOldVersion self = refused.
Proof. repeat split. Qed.

(** ** Best-model retrieval *)

Lemma bestModelList_Ok (name : string) (fps : list FittingProblem) :
  forall models,
  bestModelList name fps = Ok models <->
  Forall2 (fun f m => sub_fittingModelDict f !! name = Some m) fps models.
Proof.
  induction fps as [|f rest IH]; intros models; simpl.
  - split.
    + intros [= <-]. constructor.
    + intros H. by inversion H.
  - destruct (sub_fittingModelDict f !! name) as [m|] eqn:Hm.
    + destruct (bestModelList name rest) as [ms|e] eqn:Hrest.
      * split.
        -- intros [= <-]. constructor; [exact Hm | by apply IH].
        -- intros H. inversion H as [|? ? ? ? Hm' Hrest']; subst.
           apply IH in Hrest'. congruence.
      * split; [discriminate|].
        intros H. inversion H as [|? ? ? ? _ Hrest']; subst.
        apply IH in Hrest'. discriminate.
    + split; [discriminate|].
      intros H. inversion H as [|? ? ? ? Hm' _]; subst. congruence.
Qed.

Lemma bestModelList_missing (name : string) (fps : list FittingProblem) (f : FittingProblem) :
  f ∈ fps -> sub_fittingModelDict f !! name = None ->
  bestModelList name fps = Raise (KeyError name).
Proof.
  induction fps as [|g rest IH]; intros Hin Hnone; [by apply elem_of_nil in Hin|].
  simpl. destruct (sub_fittingModelDict g !! name) as [m|] eqn:Hm; [|reflexivity].
  apply elem_of_cons in Hin as [-> | Hin]; [congruence|].
  by rewrite (IH Hin Hnone).
Qed.

(** C8. With an explicit model name that every fitting problem has a fitted
    model for, [getBestModel] returns those models, one per problem, in the
    order of the problems, and leaves the object alone; when some problem has
    no model under that name it raises [KeyError]. *)
Theorem getBestModel_explicit_name (name : string) (maxIndex : Z)
    (kwargs : Kwargs) (self : MultiCond) :
  (forall models,
     Forall2 (fun f m => sub_fittingModelDict f !! name = Some m)
       (fittingProblemList self) models ->
     getBestModel (Some name) maxIndex kwargs self = (self, Ok models) /\
     length models = length (fittingProblemList self)) /\
  (forall f,
     f ∈ fittingProblemList self ->
     sub_fittingModelDict f !! name = None ->
     getBestModel (Some name) maxIndex kwargs self = (self, Raise (KeyError name))).
Proof.
  split.
  - intros models Hall. split; [|symmetry; by eapply Forall2_length].
    apply bestModelList_Ok in Hall.
    unfold getBestModel, bind, ret, gets. by rewrite Hall.
  - intros f Hin Hnone.
    unfold getBestModel, bind, ret, gets, raise.
    by rewrite (bestModelList_missing _ _ _ Hin Hnone).
Qed.

(** ** What a whole sweep keeps and does *)

Lemma fitConditions_length (kwargs : Kwargs) (k : nat) (name : string)
    (fps : list FittingProblem) :
  forall c0 p0 fps' r,
  fitConditions kwargs k name c0 p0 fps = (fps', r) -> length fps' = length fps.
Proof.
  induction fps as [|f rest IH]; intros c0 p0 fps' r; simpl.
  - by intros [= <- <-].
  - destruct (fitCondition kwargs k name f) as [f1 [[c1 p1]|e]].
    + destruct (fitConditions kwargs k name (c0 + c1)%float (p0 + p1)%float rest)
        as [rest' r'] eqn:Hrest.
      intros [= <- <-]. simpl. f_equal. by eapply IH.
    + by intros [= <- <-].
Qed.

(** The attributes a sweep step never touches, and what it does to the
    flag. *)
Lemma fitAll_body_keeps (kwargs : Kwargs) (i : nat) (name : string)
    (self self' : MultiCond) (r : result bool) :
  fitAll_body kwargs i name self = (self', r) ->
  length (fittingProblemList self') = length (fittingProblemList self) /\
  fittingModelNames self' = fittingModelNames self /\
  stoppingWindow self' = stoppingWindow self /\
  saveFilename self' = saveFilename self /\
  saveKey self' = saveKey self /\
  pid self' = pid self /\
  fitAllDone self' = (if r is Ok true then true else fitAllDone self).
Proof.
  rewrite fitAll_body_spec.
  destruct (fitConditions _ _ _ _ _ _) as [fps' [[c p]|e]] eqn:Hfc;
    apply fitConditions_length in Hfc.
  - rewrite recordTotals_spec. cbn [fittingProblemList set_fittingProblemList].
    destruct fps' as [|f0 rest0].
    + intros [= <- <-]. by repeat split.
    + rewrite checkDone_spec. cbv zeta.
      destruct (stoppingCheck _ _) as [[]|]; intros [= <- <-]; by repeat split.
  - intros [= <- <-]. by repeat split.
Qed.

Lemma fitAll_loop_keeps_attributes (kwargs : Kwargs) (names : list string) :
  forall (i : nat) (self s1 : MultiCond) (exit : loopExit),
  fitAll_loop kwargs i names self = (s1, exit) ->
  length (fittingProblemList s1) = length (fittingProblemList self) /\
  fittingModelNames s1 = fittingModelNames self /\
  stoppingWindow s1 = stoppingWindow self /\
  saveFilename s1 = saveFilename self /\
  saveKey s1 = saveKey self /\
  pid s1 = pid self /\
  fitAllDone s1 = (if exit is Returned _ then true else fitAllDone self).
Proof.
  induction names as [|name rest IH]; intros i self s1 exit; simpl.
  - intros [= <- <-]. by repeat split.
  - destruct (fitAll_body kwargs i name self) as [s' [[]|e]] eqn:Hbody;
      apply fitAll_body_keeps in Hbody as (H1 & H2 & H3 & H4 & H5 & H6 & H7).
    + intros [= <- <-]. by repeat split.
    + intros Hloop.
      apply IH in Hloop as (G1 & G2 & G3 & G4 & G5 & G6 & G7).
      rewrite G1, G2, G3, G4, G5, G6, G7, H7. by repeat split.
    + intros [= <- <-]. by repeat split.
Qed.

(** X1. Whatever a run of [fitAll] does, it keeps the number of fitting
    problems, the list of model names, the stopping window in force and the
    save settings, and it removes no entry from the three dictionaries.  A
    run that returns has set [fitAllDone]; a run that raises leaves
    [fitAllDone] as it found it. *)
Theorem fitAll_keeps (kwargs : Kwargs) (self : MultiCond) :
  let self' := (fitAll kwargs self).1 in
  length (fittingProblemList self') = length (fittingProblemList self) /\
  fittingModelNames self' = fittingModelNames self /\
  stoppingWindow self' = stoppingWindow self /\
  saveFilename self' = saveFilename self /\
  saveKey self' = saveKey self /\
  pid self' = pid self /\
  (forall n,
     (is_Some (costDict self !! n) -> is_Some (costDict self' !! n)) /\
     (is_Some (penaltyDict self !! n) -> is_Some (penaltyDict self' !! n)) /\
     (is_Some (logLikelihoodDict self !! n) ->
      is_Some (logLikelihoodDict self' !! n))) /\
  ((fitAll kwargs self).2 = Ok tt -> fitAllDone self' = true) /\
  (forall e, (fitAll kwargs self).2 = Raise e -> fitAllDone self' = fitAllDone self).
Proof.
  unfold fitAll.
  destruct (fitAll_loop kwargs 0 (fittingModelNames self) self) as [s1 exit] eqn:Hloop.
  pose proof (fitAll_loop_keeps_attributes _ _ _ _ _ _ Hloop)
    as (H1 & H2 & H3 & H4 & H5 & H6 & H7).
  pose proof (fun n => fitAll_loop_keeps _ _ _ _ _ _ n Hloop) as Hk.
  destruct exit as [|j|j e]; cbn -[length];
    repeat split; try assumption; try apply Hk; try discriminate; try done.
Qed.

(** [n] successive calls of the engine's [fitAll] on one problem, with
    [maxNumFit] running from [i+1] to [i+n]. *)
Fixpoint fitsFrom (kwargs : Kwargs) (i n : nat) (f : FittingProblem)
    : FittingProblem * result unit :=
  match n with
  | O => (f, Ok tt)
  | S n' =>
      match sub_fitAll kwargs (i + 1) f with
      | (f', Ok _) => fitsFrom kwargs (S i) n' f'
      | (f', Raise e) => (f', Raise e)
      end
  end.

Lemma fitAll_loop_lockstep (kwargs : Kwargs) (names : list string) :
  forall (i : nat) (self s1 : MultiCond) (exit : loopExit),
  fitAll_loop kwargs i names self = (s1, exit) ->
  (forall j e, exit <> Raised j e) ->
  exists k : nat,
    completedSteps exit (i + length names) = (i + k)%nat /\
    Forall2 (fun f f' => fitsFrom kwargs i k f = (f', Ok tt))
      (fittingProblemList self) (fittingProblemList s1).
Proof.
  induction names as [|name rest IH]; intros i self s1 exit; simpl.
  - intros [= <- <-] _. exists 0%nat. split; [simpl; lia|].
    apply Forall_Forall2_diag, Forall_forall. reflexivity.
  - destruct (fitAll_body kwargs i name self) as [s' [b|e]] eqn:Hbody.
    + assert (Hstep : Forall2 (fun f f' => sub_fitAll kwargs (i + 1) f = (f', Ok tt))
                        (fittingProblemList self) (fittingProblemList s')).
      { destruct (fitAll_body_dicts _ _ _ _ _ _ Hbody) as [_ [H | H]].
        - destruct H as (? & ? & _ & [=] & _).
        - destruct H as (fps' & c & p & Hfc & <- & _).
          by destruct (fitConditions_Ok _ _ _ _ _ _ _ _ _ Hfc). }
      destruct b.
      * intros [= <- <-] _. exists 1%nat. split; [simpl; lia|].
        eapply Forall2_impl; [exact Hstep|]. intros f f' Hf. simpl. by rewrite Hf.
      * intros Hloop Hnr.
        destruct (IH _ _ _ _ Hloop Hnr) as (k & Hk & Hall).
        exists (S k). split.
        -- replace (i + S (length rest))%nat with (S i + length rest)%nat by lia.
           rewrite Hk. lia.
        -- clear -Hstep Hall. revert Hall.
           generalize (fittingProblemList s1).
           induction Hstep as [|f f' l l' Hf Hl IHl]; intros l1 Hall.
           ++ inversion Hall. constructor.
           ++ inversion Hall as [|? f1 ? l1' Hf1 Hl1]; subst.
              constructor; [|by apply IHl]. simpl. by rewrite Hf.
    + intros [= <- <-] Hnr. by destruct (Hnr i e).
Qed.

(** X2. The conditions are fitted in lockstep and each on its own: after a
    run that did not raise and completed [k] sweep steps, the problem of
    every condition is what [k] successive calls of the engine's [fitAll]
    make of it, with [maxNumFit] = 1, 2, ..., [k], each call returning
    normally. *)
Theorem fitAll_lockstep (kwargs : Kwargs) (self s1 : MultiCond) (exit : loopExit) :
  fitAll_loop kwargs 0 (fittingModelNames self) self = (s1, exit) ->
  (forall j e, exit <> Raised j e) ->
  fittingProblemList (fitAll kwargs self).1 = fittingProblemList s1 /\
  Forall2 (fun f f' =>
             fitsFrom kwargs 0 (completedSteps exit (length (fittingModelNames self))) f
             = (f', Ok tt))
    (fittingProblemList self) (fittingProblemList s1).
Proof.
  intros Hloop Hnr. split.
  - unfold fitAll. rewrite Hloop. by destruct exit.
  - destruct (fitAll_loop_lockstep _ _ _ _ _ _ Hloop Hnr) as (k & Hk & Hall).
    simpl in Hk. by rewrite Hk.
Qed.

Lemma fitAll_body_numParameters (kwargs : Kwargs) (i : nat) (name : string)
    (self self' : MultiCond) (b : bool) :
  fitAll_body kwargs i name self = (self', Ok b) ->
  exists f0 rest0,
    fittingProblemList self' = f0 :: rest0 /\
    numParametersDict self' = sub_numParametersDict f0.
Proof.
  intros Hbody.
  destruct (fitAll_body_checked _ _ _ _ _ _ Hbody)
    as (fps' & c & p & f0 & rest0 & _ & -> & _ & ->).
  exists f0, rest0. by destruct b.
Qed.

(** X3. After a run over a non-empty list of names that did not raise, the
    parameter counts of the aggregator are those of its first fitting
    problem, as that problem is after the run. *)
Theorem fitAll_numParameters (kwargs : Kwargs) (self : MultiCond) :
  fittingModelNames self <> [] ->
  (fitAll kwargs self).2 = Ok tt ->
  exists f0 rest0,
    fittingProblemList (fitAll kwargs self).1 = f0 :: rest0 /\
    numParametersDict (fitAll kwargs self).1 = sub_numParametersDict f0.
Proof.
  intros Hne.
  assert (Hloop : forall names i s s1 exit,
    names <> [] ->
    fitAll_loop kwargs i names s = (s1, exit) ->
    (forall j e, exit <> Raised j e) ->
    exists f0 rest0,
      fittingProblemList s1 = f0 :: rest0 /\
      numParametersDict s1 = sub_numParametersDict f0).
  { induction names as [|name rest IH]; intros i s s1 exit Hn; [done|]. simpl.
    destruct (fitAll_body kwargs i name s) as [s' [[]|e]] eqn:Hbody.
    - intros [= <- <-] _. by eapply fitAll_body_numParameters.
    - destruct rest as [|name' rest'].
      + simpl. intros [= <- <-] _. by eapply fitAll_body_numParameters.
      + intros Hl Hnr. by eapply (IH (S i) s').
    - intros [= <- <-] Hnr. by destruct (Hnr i e). }
  unfold fitAll.
  destruct (fitAll_loop kwargs 0 (fittingModelNames self) self) as [s1 exit] eqn:Hl.
  destruct exit as [|j|j e]; simpl; intros Hok; try discriminate;
    destruct (Hloop _ _ _ _ _ Hne Hl) as (f0 & rest0 & H1 & H2);
    try discriminate; by exists f0, rest0.
Qed.

(** ** The sequence of recorded log-likelihoods *)

Lemma omap_lookup_absent (m : gmap string float) (l : list string) :
  (forall n, n ∈ l -> m !! n = None) -> omap (fun n => m !! n) l = [].
Proof.
  induction l as [|n l IH]; intros H; csimpl; [reflexivity|].
  rewrite (H n) by apply list_elem_of_here.
  apply IH. intros n' Hn'. apply H. by apply list_elem_of_further.
Qed.

Lemma omap_lookup_insert_other (m : gmap string float) (k : string) (v : float)
    (l : list string) :
  k ∉ l -> omap (fun n => <[k := v]> m !! n) l = omap (fun n => m !! n) l.
Proof.
  induction l as [|n l IH]; intros H; csimpl; [reflexivity|].
  apply not_elem_of_cons in H as [Hne Hl].
  rewrite lookup_insert_ne by done. by rewrite IH.
Qed.

(** With distinct names of which exactly those of [pre] are recorded, a step
    for the next name appends its log-likelihood to [orderedLs]. *)
Lemma orderedLs_step (kwargs : Kwargs) (i : nat) (name : string)
    (pre post : list string) (self self' : MultiCond) (b : bool) :
  fittingModelNames self = pre ++ name :: post ->
  NoDup (pre ++ name :: post) ->
  dom (logLikelihoodDict self) = list_to_set pre ->
  fitAll_body kwargs i name self = (self', Ok b) ->
  exists v,
    logLikelihoodDict self' !! name = Some v /\
    orderedLs self' = orderedLs self ++ [v] /\
    dom (logLikelihoodDict self') = list_to_set (pre ++ [name]).
Proof.
  intros Hnames Hnd Hdom Hbody.
  destruct (fitAll_body_dicts _ _ _ _ _ _ Hbody) as [Hn' [H | H]].
  { destruct H as (? & ? & _ & [=] & _). }
  destruct H as (fps' & c & p & _ & _ & _ & _ & Hll).
  apply NoDup_app in Hnd as (_ & Hdisj & Hnd2).
  apply NoDup_cons in Hnd2 as [Hnp _].
  assert (Hpre : name ∉ pre).
  { intros Hin. apply (Hdisj _ Hin). apply list_elem_of_here. }
  assert (Habs : forall n, n ∈ post -> logLikelihoodDict self !! n = None).
  { intros n Hin. apply not_elem_of_dom. rewrite Hdom, elem_of_list_to_set.
    intros Hin'. apply (Hdisj _ Hin'). by apply list_elem_of_further. }
  assert (Hname : logLikelihoodDict self !! name = None).
  { apply not_elem_of_dom. by rewrite Hdom, elem_of_list_to_set. }
  exists (- (c + p))%float. split; [by rewrite Hll, lookup_insert_eq|]. split.
  - unfold orderedLs. rewrite Hn', Hnames, Hll, !omap_app. csimpl.
    rewrite lookup_insert_eq, Hname.
    rewrite !omap_lookup_insert_other by done.
    rewrite (omap_lookup_absent _ post Habs). by rewrite app_nil_r.
  - rewrite Hll, dom_insert_L, Hdom, list_to_set_app_L. simpl.
    set_unfold. intros x. tauto.
Qed.

Lemma fitAll_body_check_result (kwargs : Kwargs) (i : nat) (name : string)
    (self self' : MultiCond) (b : bool) :
  fitAll_body kwargs i name self = (self', Ok b) ->
  stoppingCheck (orderedLs self') (stoppingWindow self) = Ok b.
Proof.
  intros Hbody.
  destruct (fitAll_body_checked _ _ _ _ _ _ Hbody)
    as (fps' & c & p & f0 & rest0 & _ & _ & Hcheck & ->).
  by destruct b.
Qed.

(** The log-likelihoods a loop adds to [orderedLs], one per completed step,
    and what the stopping check said of each prefix. *)
Lemma fitAll_loop_trace (kwargs : Kwargs) (rest : list string) :
  forall (pre : list string) (i : nat) (self s1 : MultiCond) (exit : loopExit),
  fittingModelNames self = pre ++ rest ->
  NoDup (pre ++ rest) ->
  dom (logLikelihoodDict self) = list_to_set pre ->
  fitAll_loop kwargs i rest self = (s1, exit) ->
  (forall j e, exit <> Raised j e) ->
  exists added : list float,
    orderedLs s1 = orderedLs self ++ added /\
    completedSteps exit (i + length rest) = (i + length added)%nat /\
    (forall m, (0 < m < length added)%nat ->
       stoppingCheck (orderedLs self ++ take m added) (stoppingWindow self) = Ok false) /\
    (forall j, exit = Returned j -> added <> []) /\
    (added <> [] ->
     stoppingCheck (orderedLs s1) (stoppingWindow self)
     = Ok (if exit is Returned _ then true else false)).
Proof.
  induction rest as [|name rest IH]; intros pre i self s1 exit Hnames Hnd Hdom; simpl.
  - intros [= <- <-] _. exists []. rewrite app_nil_r. simpl.
    split; [done|]. split; [lia|]. split; [intros m; lia|]. split; done.
  - destruct (fitAll_body kwargs i name self) as [s' [b|e]] eqn:Hbody.
    + destruct (orderedLs_step _ _ _ _ _ _ _ _ Hnames Hnd Hdom Hbody)
        as (v & _ & Hls & Hdom').
      pose proof (fitAll_body_check_result _ _ _ _ _ _ Hbody) as Hcheck.
      destruct (fitAll_body_frame _ _ _ _ _ _ Hbody) as [Hn Hw].
      destruct b.
      * intros [= <- <-] _. exists [v]. simpl.
        split; [done|]. split; [lia|]. split; [intros m; lia|]. split; done.
      * intros Hloop Hnr.
        assert (Hnames' : fittingModelNames s' = (pre ++ [name]) ++ rest)
          by (by rewrite Hn, Hnames, <- app_assoc).
        assert (Hnd' : NoDup ((pre ++ [name]) ++ rest)) by (by rewrite <- app_assoc).
        destruct (IH _ _ _ _ _ Hnames' Hnd' Hdom' Hloop Hnr)
          as (added & Hadd & Hsteps & Hfalse & Hret & Hlast).
        rewrite Hw in Hfalse, Hlast.
        exists (v :: added). simpl.
        split; [by rewrite Hadd, Hls, <- app_assoc|].
        split; [replace (i + S (length rest))%nat with (S i + length rest)%nat by lia;
                rewrite Hsteps; lia|].
        split.
        -- intros [|m] Hm; [lia|]. simpl.
           destruct m as [|m].
           ++ rewrite take_0, <- Hls. exact Hcheck.
           ++ replace (orderedLs self ++ v :: take (S m) added)
                with (orderedLs s' ++ take (S m) added)
                by (by rewrite Hls, <- app_assoc).
              apply Hfalse. lia.
        -- split; [done|]. intros _. destruct added as [|a added'].
           ++ rewrite app_nil_r in Hadd. rewrite Hadd.
              destruct exit as [|j|j e].
              ** exact Hcheck.
              ** by destruct (Hret j).
              ** by destruct (Hnr j e).
           ++ by apply Hlast.
    + intros [= <- <-] Hnr. by destruct (Hnr i e).
Qed.

(** X4. Start from an empty log-likelihood dictionary with distinct names.
    After a run that did not raise, [orderedLs] holds one log-likelihood per
    completed step, in sweep order.  The stopping check said no on every
    proper prefix of it of length at least one: the sweep stops at the first
    step at which the rule holds, not later.  When the run ended by the early
    [return] the check says yes on the whole sequence, and when it ended by
    exhausting a non-empty list it says no. *)
Theorem fitAll_stops_at_first (kwargs : Kwargs) (self s1 : MultiCond)
    (exit : loopExit) :
  logLikelihoodDict self = ∅ ->
  NoDup (fittingModelNames self) ->
  fitAll_loop kwargs 0 (fittingModelNames self) self = (s1, exit) ->
  (forall j e, exit <> Raised j e) ->
  let W := stoppingWindow self in
  let ls := orderedLs s1 in
  orderedLs (fitAll kwargs self).1 = ls /\
  length ls = completedSteps exit (length (fittingModelNames self)) /\
  (forall m, (0 < m < length ls)%nat -> stoppingCheck (take m ls) W = Ok false) /\
  (forall j, exit = Returned j -> stoppingCheck ls W = Ok true) /\
  (exit = Exhausted -> ls <> [] -> stoppingCheck ls W = Ok false).
Proof.
  intros Hl Hnd Hloop Hnr W ls.
  assert (Hdom : dom (logLikelihoodDict self) = list_to_set [])
    by (by rewrite Hl, dom_empty_L).
  destruct (fitAll_loop_trace kwargs _ [] 0%nat _ _ _ eq_refl Hnd Hdom Hloop Hnr)
    as (added & Hadd & Hsteps & Hfalse & _ & Hlast).
  assert (H0 : orderedLs self = []).
  { unfold orderedLs. apply omap_lookup_absent. intros n _. by rewrite Hl. }
  rewrite H0 in Hadd, Hfalse. simpl in Hadd, Hfalse, Hsteps.
  fold ls in Hadd. rewrite <- Hadd in Hfalse, Hsteps, Hlast.
  fold ls W in Hlast.
  split; [|split; [|split; [|split]]].
  - unfold fitAll. rewrite Hloop. by destruct exit.
  - by rewrite Hsteps.
  - exact Hfalse.
  - intros j ->. apply Hlast. intros Hnil.
    rewrite Hnil in Hsteps. simpl in Hsteps. lia.
  - intros -> Hne. by apply Hlast.
Qed.

(** X5. Start from an empty log-likelihood dictionary with distinct names
    and a window [W] that is not negative.  A run that ends by the early
    [return] at index [j] has [W <= j]: at least [W + 1] models are swept
    before the rule can stop the sweep. *)
Theorem fitAll_sweeps_beyond_window (kwargs : Kwargs) (self s1 : MultiCond) (j : nat) :
  logLikelihoodDict self = ∅ ->
  NoDup (fittingModelNames self) ->
  0 <= stoppingWindow self ->
  fitAll_loop kwargs 0 (fittingModelNames self) self = (s1, Returned j) ->
  stoppingWindow self <= Z.of_nat j /\
  (Z.to_nat (stoppingWindow self) + 1 <= length (orderedLs s1))%nat.
Proof.
  intros Hl Hnd HW Hloop.
  assert (Hdom : dom (logLikelihoodDict self) = list_to_set [])
    by (by rewrite Hl, dom_empty_L).
  destruct (fitAll_loop_trace kwargs _ [] 0%nat _ _ _ eq_refl Hnd Hdom Hloop)
    as (added & Hadd & Hsteps & _ & _ & Hlast); [discriminate|].
  assert (H0 : orderedLs self = []).
  { unfold orderedLs. apply omap_lookup_absent. intros n _. by rewrite Hl. }
  rewrite H0 in Hadd. simpl in Hadd, Hsteps. rewrite <- Hadd in Hsteps, Hlast.
  assert (Hne : orderedLs s1 <> []).
  { intros Hnil. rewrite Hnil in Hsteps. simpl in Hsteps. lia. }
  specialize (Hlast Hne). rewrite stoppingCheck_spec in Hlast by exact HW.
  injection Hlast as Hlast. apply andb_true_iff in Hlast as [Hlen _].
  apply bool_decide_eq_true in Hlen. lia.
Qed.

(** ** Windows that are zero or negative *)

Lemma stoppingCheck_zero (ls : list float) : stoppingCheck ls 0 = Ok false.
Proof.
  rewrite stoppingCheck_spec by lia. simpl (Z.to_nat 0). rewrite lastn_zero.
  simpl. by rewrite andb_false_r.
Qed.

Lemma fitAll_loop_exhausted (kwargs : Kwargs) (names : list string) :
  forall (i : nat) (self s1 : MultiCond),
  fitAll_loop kwargs i names self = (s1, Exhausted) ->
  forall n, n ∈ names ->
    is_Some (costDict s1 !! n) /\ is_Some (penaltyDict s1 !! n) /\
    is_Some (logLikelihoodDict s1 !! n).
Proof.
  induction names as [|name rest IH]; intros i self s1; simpl.
  - intros _ n Hn. by apply elem_of_nil in Hn.
  - destruct (fitAll_body kwargs i name self) as [s' [[]|e]] eqn:Hbody; try discriminate.
    intros Hloop n Hin.
    apply elem_of_cons in Hin as [-> | Hin]; [|by eapply IH].
    destruct (fitAll_body_recorded _ _ _ _ _ _ Hbody) as (H1 & H2 & H3).
    destruct (fitAll_loop_keeps _ _ _ _ _ _ name Hloop) as (G1 & G2 & G3). auto.
Qed.

(** X6. With a stopping window of 0 the early [return] is never executed:
    [orderedLs[-0:]] is the whole list, whose maximum is not below itself.
    A [fitAll] that returns has then recorded every candidate name. *)
Theorem fitAll_zero_window (kwargs : Kwargs) (self : MultiCond) :
  stoppingWindow self = 0 ->
  (forall i names s1 j, fitAll_loop kwargs i names self <> (s1, Returned j)) /\
  ((fitAll kwargs self).2 = Ok tt ->
   forall n, n ∈ fittingModelNames self ->
     is_Some (costDict (fitAll kwargs self).1 !! n) /\
     is_Some (penaltyDict (fitAll kwargs self).1 !! n) /\
     is_Some (logLikelihoodDict (fitAll kwargs self).1 !! n)).
Proof.
  intros HW.
  assert (Hno : forall names i s s1 j,
            stoppingWindow s = 0 -> fitAll_loop kwargs i names s <> (s1, Returned j)).
  { induction names as [|name rest IH]; intros i s s1 j Hs; simpl; [discriminate|].
    destruct (fitAll_body kwargs i name s) as [s' [[]|e]] eqn:Hbody.
    - apply fitAll_body_check_result in Hbody.
      rewrite Hs, stoppingCheck_zero in Hbody. discriminate.
    - apply IH. destruct (fitAll_body_frame _ _ _ _ _ _ Hbody) as [_ Hw]. congruence.
    - discriminate. }
  split; [intros i names s1 j; by apply Hno|].
  unfold fitAll.
  destruct (fitAll_loop kwargs 0 (fittingModelNames self) self) as [s1 [|j|j e]] eqn:Hloop;
    simpl; intros Hok; try discriminate.
  - by eapply fitAll_loop_exhausted.
  - by destruct (Hno _ _ _ _ _ HW Hloop).
Qed.

Lemma fitConditions_all_Ok (kwargs : Kwargs) (k : nat) (name : string)
    (fps : list FittingProblem) :
  forall c0 p0,
  Forall (fun f => exists f' cp, fitCondition kwargs k name f = (f', Ok cp)) fps ->
  exists fps' c p,
    fitConditions kwargs k name c0 p0 fps = (fps', Ok (c, p)) /\
    length fps' = length fps.
Proof.
  induction fps as [|f rest IH]; intros c0 p0 Hall; simpl.
  - exists [], c0, p0. done.
  - inversion Hall as [|? ? (f' & [c1 p1] & Hf) Hrest]; subst. rewrite Hf.
    destruct (IH (c0 + c1)%float (p0 + p1)%float Hrest) as (rest' & c & p & -> & Hlen).
    exists (f' :: rest'), c, p. simpl. by rewrite Hlen.
Qed.

(** X7. With a negative stopping window, empty dictionaries and a first name
    that does not occur again, [fitAll] never returns normally, and it
    leaves [fitAllDone] as it was.  When the fits of the first step go
    through, the totals of the first name are recorded and the check then
    raises [ValueError]: the slice [orderedLs[-W:]] is empty and [max] has
    nothing to work on. *)
Theorem fitAll_negative_window (kwargs : Kwargs) (self : MultiCond)
    (name : string) (rest : list string) :
  stoppingWindow self < 0 ->
  logLikelihoodDict self = ∅ ->
  fittingModelNames self = name :: rest ->
  name ∉ rest ->
  (exists e, (fitAll kwargs self).2 = Raise e) /\
  fitAllDone (fitAll kwargs self).1 = fitAllDone self /\
  (fittingProblemList self <> [] ->
   Forall (fun f => exists f' cp, fitCondition kwargs 1 name f = (f', Ok cp))
     (fittingProblemList self) ->
   (fitAll kwargs self).2 = Raise ValueError /\
   is_Some (costDict (fitAll kwargs self).1 !! name) /\
   is_Some (penaltyDict (fitAll kwargs self).1 !! name) /\
   is_Some (logLikelihoodDict (fitAll kwargs self).1 !! name)).
Proof.
  intros HW Hl Hnames Hnotin.
  assert (Hcheck : forall c p f0 fps',
    stoppingCheck (orderedLs (set_numParametersDict (sub_numParametersDict f0)
       (withTotals name c p (set_fittingProblemList fps' self))))
      (stoppingWindow self) = Raise ValueError).
  { intros c p f0 fps'.
    assert (Hls : orderedLs (set_numParametersDict (sub_numParametersDict f0)
                    (withTotals name c p (set_fittingProblemList fps' self)))
                  = [(- (c + p))%float]).
    { unfold orderedLs.
      cbn [fittingModelNames logLikelihoodDict set_numParametersDict withTotals
           set_logLikelihoodDict set_penaltyDict set_costDict set_fittingProblemList].
      rewrite Hnames, Hl. csimpl. rewrite lookup_insert_eq.
      rewrite omap_lookup_insert_other by done.
      by rewrite omap_lookup_absent. }
    rewrite Hls. unfold stoppingCheck, py_slice_from. simpl length.
    destruct (Z.gtb_spec (Z.of_nat 1) (stoppingWindow self)) as [_|]; [|lia].
    destruct (Z.ltb_spec (- stoppingWindow self) 0) as [|_]; [lia|].
    rewrite Z.min_r by lia. reflexivity. }
  unfold fitAll. rewrite Hnames. simpl fitAll_loop.
  rewrite fitAll_body_spec. simpl (0 + 1)%nat.
  destruct (fitConditions kwargs 1 name 0%float 0%float (fittingProblemList self))
    as [fps' [[c p]|e]] eqn:Hfc.
  - rewrite recordTotals_spec. cbn [fittingProblemList set_fittingProblemList].
    destruct fps' as [|f0 rest0].
    + simpl. split; [eauto|]. split; [done|].
      intros Hne _. apply fitConditions_length in Hfc.
      destruct (fittingProblemList self); [done | discriminate].
    + rewrite checkDone_spec. cbv zeta.
      change (stoppingWindow (set_numParametersDict (sub_numParametersDict f0)
                (withTotals name c p (set_fittingProblemList (f0 :: rest0) self))))
        with (stoppingWindow self).
      rewrite Hcheck. simpl.
      split; [eauto|]. split; [done|]. intros _ _.
      rewrite !lookup_insert_eq. eauto.
  - simpl. split; [eauto|]. split; [done|]. intros _ Hall.
    destruct (fitConditions_all_Ok kwargs 1 name _ 0%float 0%float Hall)
      as (? & ? & ? & Hok & _).
    congruence.
Qed.

(** ** A condition that fails *)

Lemma fitConditions_first_Raise_state (kwargs : Kwargs) (k : nat) (name : string)
    (pre pre' : list FittingProblem) :
  forall (c0 p0 : float) (f f' : FittingProblem) (post : list FittingProblem) (e : exn),
  Forall2 (fun g g' => exists cp, fitCondition kwargs k name g = (g', Ok cp)) pre pre' ->
  fitCondition kwargs k name f = (f', Raise e) ->
  fitConditions kwargs k name c0 p0 (pre ++ f :: post) = (pre' ++ f' :: post, Raise e).
Proof.
  intros c0 p0 f f' post e Hpre Hf. revert c0 p0.
  induction Hpre as [|g g' pre pre' ([c1 p1] & Hg) Hpre IH]; intros c0 p0; simpl.
  - by rewrite Hf.
  - by rewrite Hg, IH.
Qed.

(** What a sweep step leaves when the loop over the conditions raises at
    condition [f]: the problems, and the attributes of the aggregator that
    are its own.  Nothing is said of [numParametersDict], which the program
    shares with the first problem. *)
Lemma fitAll_body_condition_raises (kwargs : Kwargs) (i : nat) (name : string)
    (self : MultiCond) (pre pre' : list FittingProblem) (f f' : FittingProblem)
    (post : list FittingProblem) (e : exn) :
  fittingProblemList self = pre ++ f :: post ->
  Forall2 (fun g g' => exists cp, fitCondition kwargs (i + 1) name g = (g', Ok cp))
    pre pre' ->
  fitCondition kwargs (i + 1) name f = (f', Raise e) ->
  exists self',
    fitAll_body kwargs i name self = (self', Raise e) /\
    fittingProblemList self' = pre' ++ f' :: post /\
    costDict self' = costDict self /\
    penaltyDict self' = penaltyDict self /\
    logLikelihoodDict self' = logLikelihoodDict self /\
    fitAllDone self' = fitAllDone self /\
    fittingModelNames self' = fittingModelNames self /\
    stopFittingN self' = stopFittingN self.
Proof.
  intros Hlist Hpre Hf.
  exists (set_fittingProblemList (pre' ++ f' :: post) self).
  split; [|by repeat split].
  rewrite fitAll_body_spec, Hlist.
  by rewrite (fitConditions_first_Raise_state _ _ _ _ _ _ _ _ _ _ _ Hpre Hf).
Qed.

(** X8. When the engine's fit of a condition raises, the conditions before
    it having gone through, the sweep step raises the same exception; the
    earlier conditions stay fitted, the failing one is as its fit left it,
    the later ones were not fitted, and the cost, penalty and log-likelihood
    dictionaries, [fitAllDone], the model names and the stopping window of
    the aggregator are as before. *)
Theorem fitAll_failure_stops_conditions (kwargs : Kwargs) (i : nat) (name : string)
    (self : MultiCond) (pre pre' : list FittingProblem) (f f' : FittingProblem)
    (post : list FittingProblem) (e : exn) :
  fittingProblemList self = pre ++ f :: post ->
  Forall2 (fun g g' => exists cp, fitCondition kwargs (i + 1) name g = (g', Ok cp))
    pre pre' ->
  sub_fitAll kwargs (i + 1) f = (f', Raise e) ->
  exists self',
    fitAll_body kwargs i name self = (self', Raise e) /\
    fittingProblemList self' = pre' ++ f' :: post /\
    costDict self' = costDict self /\
    penaltyDict self' = penaltyDict self /\
    logLikelihoodDict self' = logLikelihoodDict self /\
    fitAllDone self' = fitAllDone self /\
    fittingModelNames self' = fittingModelNames self /\
    stopFittingN self' = stopFittingN self.
Proof.
  intros Hlist Hpre Hfit. apply (fitCondition_fit_Raise _ _ name) in Hfit.
  by eapply fitAll_body_condition_raises.
Qed.

(** X9. When the fit of a condition returns normally but leaves no cost, or
    no penalty, under the current name, the sweep step raises [KeyError] for
    that name; the earlier conditions stay fitted, the later ones are not
    fitted, and the cost, penalty and log-likelihood dictionaries,
    [fitAllDone], the model names and the stopping window of the aggregator
    are as before. *)
Theorem fitAll_missing_cost (kwargs : Kwargs) (i : nat) (name : string)
    (self : MultiCond) (pre pre' : list FittingProblem) (f f' : FittingProblem)
    (post : list FittingProblem) :
  fittingProblemList self = pre ++ f :: post ->
  Forall2 (fun g g' => exists cp, fitCondition kwargs (i + 1) name g = (g', Ok cp))
    pre pre' ->
  sub_fitAll kwargs (i + 1) f = (f', Ok tt) ->
  sub_costDict f' !! name = None \/ sub_penaltyDict f' !! name = None ->
  exists self',
    fitAll_body kwargs i name self = (self', Raise (KeyError name)) /\
    fittingProblemList self' = pre' ++ f' :: post /\
    costDict self' = costDict self /\
    penaltyDict self' = penaltyDict self /\
    logLikelihoodDict self' = logLikelihoodDict self /\
    fitAllDone self' = fitAllDone self /\
    fittingModelNames self' = fittingModelNames self /\
    stopFittingN self' = stopFittingN self.
Proof.
  intros Hlist Hpre Hfit Hmiss.
  assert (Hf : fitCondition kwargs (i + 1) name f = (f', Raise (KeyError name))).
  { unfold fitCondition, bind, gets, getitem, ret, raise. rewrite Hfit. simpl.
    destruct (sub_costDict f' !! name) as [c|] eqn:Hc; simpl; [|done].
    destruct Hmiss as [Hm | Hm]; [done|]. by rewrite Hm. }
  by eapply fitAll_body_condition_raises.
Qed.

(** ** A log-likelihood that is not a number *)

Lemma float_is_nan_spec (x : float) : is_nan x = true -> Prim2SF x = S754_nan.
Proof.
  unfold is_nan. rewrite FloatAxioms.eqb_spec. unfold SFeqb.
  destruct (Prim2SF x) as [s | s | | s m e]; simpl; try destruct s; try done;
    rewrite Z.compare_refl, Pos.compare_cont_refl; done.
Qed.

Lemma float_nan_ltb (x y : float) :
  is_nan x = true -> PrimFloat.ltb x y = false /\ PrimFloat.ltb y x = false.
Proof.
  intros Hx. apply float_is_nan_spec in Hx.
  rewrite !FloatAxioms.ltb_spec, Hx. unfold SFltb. split; [done|].
  by destruct (Prim2SF y).
Qed.

Lemma py_max_nan_head (x : float) (l : list float) :
  is_nan x = true -> py_max (x :: l) = Some x.
Proof.
  intros Hx. simpl. f_equal. induction l as [|y l IH]; simpl; [done|].
  by destruct (float_nan_ltb x y Hx) as [-> _].
Qed.

(** X10. Once the first recorded log-likelihood is not a number, no sweep
    step executes the early [return]: [max] keeps a leading NaN, and nothing
    compares below NaN. *)
Theorem fitAll_nan_blocks_stopping (kwargs : Kwargs) (i : nat) (name : string)
    (self self' : MultiCond) (r : result bool) (x : float) :
  0 <= stoppingWindow self ->
  fitAll_body kwargs i name self = (self', r) ->
  head (orderedLs self') = Some x ->
  is_nan x = true ->
  r <> Ok true.
Proof.
  intros HW Hbody Hhead Hx ->.
  destruct (fitAll_body_answer _ _ _ _ _ _ HW Hbody) as [Hb _].
  destruct (orderedLs self') as [|y l] eqn:Hls; [done|].
  injection Hhead as ->.
  rewrite (py_max_nan_head x l Hx) in Hb.
  destruct (py_max (lastn _ _)) as [recent|].
  - destruct (float_nan_ltb x recent Hx) as [_ Hlt]. rewrite Hlt in Hb.
    by rewrite andb_false_r in Hb.
  - by rewrite andb_false_r in Hb.
Qed.

(** ** More on construction *)

Lemma build_fittingProblemList_Raise
    (ctor : FittingData -> list (list IndepParam) -> result FittingProblem)
    (pairs : list (FittingData * list (list IndepParam))) (e : exn) :
  build_fittingProblemList ctor pairs = Raise e <->
  exists pre pr post,
    pairs = pre ++ pr :: post /\
    Forall (fun q => exists f, ctor q.1 q.2 = Ok f) pre /\
    ctor pr.1 pr.2 = Raise e.
Proof.
  induction pairs as [|[fd ipl] rest IH]; simpl.
  - split; [discriminate|]. intros (pre & pr & post & H & _). by destruct pre.
  - destruct (ctor fd ipl) as [f|e1] eqn:Hf.
    + destruct (build_fittingProblemList ctor rest) as [fs|e2] eqn:Hrest.
      * split; [discriminate|].
        intros (pre & pr & post & Hsplit & Hpre & Hpr).
        destruct pre as [|q pre]; simpl in Hsplit; injection Hsplit as <- ->.
        -- simpl in Hpr. congruence.
        -- inversion Hpre as [|? ? _ Hpre']; subst.
           assert (Hr : Ok fs = Raise e) by (apply IH; by exists pre, pr, post).
           discriminate Hr.
      * split.
        -- intros [= ->]. destruct IH as [IH _].
           destruct (IH eq_refl) as (pre & pr & post & -> & Hpre & Hpr).
           exists ((fd, ipl) :: pre), pr, post. split; [done|].
           split; [|done]. constructor; [simpl; eauto | done].
        -- intros (pre & pr & post & Hsplit & Hpre & Hpr).
           destruct pre as [|q pre]; simpl in Hsplit; injection Hsplit as <- ->.
           ++ simpl in Hpr. congruence.
           ++ inversion Hpre as [|? ? _ Hpre']; subst. apply IH.
              by exists pre, pr, post.
    + split.
      * intros [= ->]. exists [], (fd, ipl), rest. by repeat split.
      * intros (pre & pr & post & Hsplit & Hpre & Hpr).
        destruct pre as [|q pre]; simpl in Hsplit; injection Hsplit as <- ->.
        -- simpl in Hpr. congruence.
        -- inversion Hpre as [|? ? [f Hq] _]; subst. simpl in Hq. congruence.
Qed.

(** X11. An exception of the engine's constructor ends the construction:
    when the constructor raises for a pair, the pairs before it having been
    built, [__init__] raises that exception and shared setup is never
    reached. *)
Theorem init_constructor_error_propagates
    (fittingModelList : list FittingModel) (data : list FittingData)
    (params : option (list (list (list IndepParam))))
    (sf : option string) (sk : Z) (kwargs : Kwargs) (getpid : Z)
    (pre post : list (FittingData * list (list IndepParam)))
    (fd : FittingData) (ipl : list (list IndepParam)) (e : exn) :
  zip data (paramsInForce data params) = pre ++ (fd, ipl) :: post ->
  Forall (fun q => exists f, FittingProblem_init q.1 fittingModelList q.2 kwargs = Ok f)
    pre ->
  FittingProblem_init fd fittingModelList ipl kwargs = Raise e ->
  FittingProblemMultipleCondition_init data fittingModelList params sf sk kwargs getpid
  = Raise e.
Proof.
  intros Hzip Hpre Hfail.
  unfold FittingProblemMultipleCondition_init, construct.
  fold (paramsInForce data params).
  assert (Hb : build_fittingProblemList
                 (fun fd ipl => FittingProblem_init fd fittingModelList ipl kwargs)
                 (zip data (paramsInForce data params)) = Raise e).
  { apply build_fittingProblemList_Raise. exists pre, (fd, ipl), post. done. }
  unfold paramsInForce in Hb. destruct params; simpl in *; by rewrite Hb.
Qed.

(** X12. Every outcome of the constructor of the CTSN family.  It returns an
    aggregator exactly when the engine built a problem for every pair, there
    is at least one pair and the first problem has a stopping window; the
    aggregator then holds those problems, empty dictionaries, a cleared
    [fitAllDone], the given save settings and the first problem's names and
    window.  Otherwise it raises the exception of the first failing engine
    constructor, or [IndexError] when there is no pair, or [AttributeError]
    when the first problem has no stopping window. *)
Theorem CTSN_init_outcome
    (complexityList : ComplexityList) (data : list FittingData)
    (params : option (list (list (list IndepParam))))
    (sf : option string) (sk : Z) (kwargs : Kwargs) (getpid : Z) :
  let ctor := fun fd ipl => CTSNFittingProblem_init complexityList fd ipl kwargs in
  let pairs := zip data (paramsInForce data params) in
  match CTSNFittingProblemMultipleCondition_init complexityList data params sf sk
          kwargs getpid with
  | Ok self =>
      exists f0 w,
        Forall2 (fun pr f => ctor pr.1 pr.2 = Ok f) pairs (fittingProblemList self) /\
        head (fittingProblemList self) = Some f0 /\
        sub_stopFittingN f0 = Some w /\
        stopFittingN self = Some w /\
        fittingModelNames self = sub_fittingModelNames f0 /\
        costDict self = ∅ /\ penaltyDict self = ∅ /\
        logLikelihoodDict self = ∅ /\ numParametersDict self = ∅ /\
        fitAllDone self = false /\
        saveFilename self = sf /\ saveKey self = sk /\ pid self = getpid
  | Raise e =>
      (exists pre pr post,
         pairs = pre ++ pr :: post /\
         Forall (fun q => exists f, ctor q.1 q.2 = Ok f) pre /\
         ctor pr.1 pr.2 = Raise e) \/
      (e = IndexError /\ pairs = []) \/
      (e = AttributeError "stopFittingN" /\
       exists f0 rest0,
         Forall2 (fun pr f => ctor pr.1 pr.2 = Ok f) pairs (f0 :: rest0) /\
         sub_stopFittingN f0 = None)
  end.
Proof.
  intros ctor pairs.
  assert (Hc : CTSNFittingProblemMultipleCondition_init complexityList data params sf sk
                 kwargs getpid =
               match build_fittingProblemList ctor pairs with
               | Raise e => Raise e
               | Ok fps => generalSetup fps sf sk getpid
               end).
  { unfold CTSNFittingProblemMultipleCondition_init, construct, pairs, paramsInForce.
    by destruct params. }
  rewrite Hc.
  destruct (build_fittingProblemList ctor pairs) as [fps|e] eqn:Hb.
  - apply build_fittingProblemList_Ok in Hb. unfold generalSetup.
    destruct fps as [|f0 rest0].
    + right. left. split; [done|]. by inversion Hb.
    + destruct (sub_stopFittingN f0) as [w|] eqn:Hw.
      * exists f0, w. by repeat split.
      * right. right. split; [done|]. by exists f0, rest0.
  - left. by apply build_fittingProblemList_Raise.
Qed.

(** X13. When no parameter lists are given, nothing is cut off: a
    construction that succeeds holds one problem per dataset, the i-th built
    from the i-th dataset and the parameter list [[[]]].  Stated for the
    three constructors. *)
Theorem init_default_parameter_lists
    (fittingModelList : list FittingModel) (complexityList : ComplexityList)
    (data : list FittingData) (sf : option string) (sk : Z) (kwargs : Kwargs)
    (getpid : Z) :
  let claim := fun ctor (made : result MultiCond) =>
    forall self,
      made = Ok self ->
      length (fittingProblemList self) = length data /\
      forall i f, fittingProblemList self !! i = Some f ->
        exists fd, data !! i = Some fd /\ ctor fd [[]] = Ok f in
  claim (fun fd ipl => FittingProblem_init fd fittingModelList ipl kwargs)
    (FittingProblemMultipleCondition_init data fittingModelList None sf sk kwargs getpid) /\
  claim (fun fd ipl => PowerLawFittingProblem_init complexityList fd ipl kwargs)
    (PowerLawFittingProblemMultipleCondition_init complexityList data None sf sk
       kwargs getpid) /\
  claim (fun fd ipl => CTSNFittingProblem_init complexityList fd ipl kwargs)
    (CTSNFittingProblemMultipleCondition_init complexityList data None sf sk
       kwargs getpid).
Proof.
  assert (H : forall ctor self,
    construct ctor data None sf sk getpid = Ok self ->
    length (fittingProblemList self) = length data /\
    forall i f, fittingProblemList self !! i = Some f ->
      exists fd, data !! i = Some fd /\ ctor fd [[]] = Ok f).
  { intros ctor self Hmade.
    destruct (construct_spec ctor data None sf sk getpid) as [Hok _].
    destruct (Hok self Hmade) as (Hlen & _ & Hith).
    unfold paramsInForce in Hlen, Hith. simpl in Hlen, Hith.
    rewrite length_map, Nat.min_id in Hlen. split; [done|].
    intros i f Hi. destruct (Hith i f Hi) as (fd & ipl & Hd & Hp & Hf).
    rewrite list_lookup_fmap, Hd in Hp. injection Hp as <-. eauto. }
  cbv beta zeta. split; [|split]; intros self Hmade; exact (H _ self Hmade).
Qed.

(** ** Delegated methods

    More of the engine, taken as given like its [fitAll]: the methods of a
    single fitting problem that the aggregator calls once per condition.
    What a plot call returns is opaque, and so is a file name.  The calls
    that the aggregator itself makes to [Plotting.figure()] are counted. *)
Variables (Plot Filename : Type).
Variable sub_fitPerfectModel : Kwargs -> M FittingProblem unit.
Variable sub_plotResults : Kwargs -> M FittingProblem Plot.
Variable sub_plotModelResults : FittingModel -> Kwargs -> M FittingProblem Plot.
Variable sub_networkFigureBestModel :
  Filename -> string -> Kwargs -> M FittingProblem Plot.

(** [for fittingProblem in self.fittingProblemList: fittingProblem.op()],
    the value of each call being dropped. *)
Fixpoint forEachProblem {A : Type} (op : M FittingProblem A)
    (fps : list FittingProblem) : list FittingProblem * result unit :=
  match fps with
  | [] => ([], Ok tt)
  | fittingProblem :: rest =>
      match op fittingProblem with
      | (fittingProblem', Raise e) => (fittingProblem' :: rest, Raise e)
      | (fittingProblem', Ok _) =>
          let '(rest', r) := forEachProblem op rest in
          (fittingProblem' :: rest', r)
      end
  end.

Definition fitPerfectModel (kwargs : Kwargs) : M MultiCond unit :=
  fun self =>
    let '(fps', r) := forEachProblem (sub_fitPerfectModel kwargs) (fittingProblemList self) in
    (set_fittingProblemList fps' self, r).

Definition plotResults (kwargs : Kwargs) : M MultiCond unit :=
  fun self =>
    let '(fps', r) := forEachProblem (sub_plotResults kwargs) (fittingProblemList self) in
    (set_fittingProblemList fps' self, r).

(** The loop of [plotBestModelResults]: open a figure, look the model up,
    plot it, append the result.  [figures] counts the figures opened. *)
Fixpoint plotEach (modelName : string) (kwargs : Kwargs)
    (fps : list FittingProblem) (figures : nat)
    : (list FittingProblem * nat) * result (list Plot) :=
  match fps with
  | [] => (([], figures), Ok [])
  | fittingProblem :: rest =>
      let figures := S figures in
      match sub_fittingModelDict fittingProblem !! modelName with
      | None => ((fittingProblem :: rest, figures), Raise (KeyError modelName))
      | Some m =>
          match sub_plotModelResults m kwargs fittingProblem with
          | (fittingProblem', Raise e) => ((fittingProblem' :: rest, figures), Raise e)
          | (fittingProblem', Ok plot) =>
              let '((rest', figures'), r) := plotEach modelName kwargs rest figures in
              ((fittingProblem' :: rest', figures'),
               match r with
               | Ok returnList => Ok (plot :: returnList)
               | Raise e => Raise e
               end)
          end
      end
  end.

Definition plotBestModelResults (modelName : option string) (maxIndex : Z)
    (kwargs : Kwargs) : M (MultiCond * nat) (list Plot) :=
  fun '(self, figures) =>
    match (match modelName with
           | None => maxLogLikelihoodName maxIndex
           | Some n => ret n
           end) self with
    | (self1, Raise e) => ((self1, figures), Raise e)
    | (self1, Ok modelName) =>
        let '((fps', figures'), r) :=
          plotEach modelName kwargs (fittingProblemList self1) figures in
        ((set_fittingProblemList fps' self1, figures'), r)
    end.

(** The comprehension of [networkFigureBestModel] over
    [zip(self.fittingProblemList, filenameMultiple)]. *)
Fixpoint networkFigures (modelName : string) (kwargs : Kwargs)
    (fps : list FittingProblem) (filenameMultiple : list Filename)
    : list FittingProblem * result (list Plot) :=
  match fps, filenameMultiple with
  | fp :: rest, filename :: filenames =>
      match sub_networkFigureBestModel filename modelName kwargs fp with
      | (fp', Raise e) => (fp' :: rest, Raise e)
      | (fp', Ok figure) =>
          let '(rest', r) := networkFigures modelName kwargs rest filenames in
          (fp' :: rest',
           match r with
           | Ok figures => Ok (figure :: figures)
           | Raise e => Raise e
           end)
      end
  | _, _ => (fps, Ok [])
  end.

(** [networkFigureBestModel] of the power-law and of the CTSN family, which
    have the same body. *)
Definition networkFigureBestModel (filenameMultiple : list Filename)
    (maxIndex : Z) (modelName : option string) (kwargs : Kwargs)
    : M MultiCond (list Plot) :=
  fun self =>
    match (match modelName with
           | None => maxLogLikelihoodName maxIndex
           | Some n => ret n
           end) self with
    | (self1, Raise e) => (self1, Raise e)
    | (self1, Ok modelName) =>
        let '(fps', r) :=
          networkFigures modelName kwargs (fittingProblemList self1) filenameMultiple in
        (set_fittingProblemList fps' self1, r)
    end.

Lemma forEachProblem_all {A : Type} (op : M FittingProblem A)
    (fps fps' : list FittingProblem) :
  Forall2 (fun f f' => exists a, op f = (f', Ok a)) fps fps' ->
  forEachProblem op fps = (fps', Ok tt).
Proof.
  induction 1 as [|f f' fps fps' [a Hf] _ IH]; simpl; [done|].
  by rewrite Hf, IH.
Qed.

Lemma forEachProblem_first_Raise {A : Type} (op : M FittingProblem A)
    (pre pre' : list FittingProblem) (f f' : FittingProblem)
    (post : list FittingProblem) (e : exn) :
  Forall2 (fun g g' => exists a, op g = (g', Ok a)) pre pre' ->
  op f = (f', Raise e) ->
  forEachProblem op (pre ++ f :: post) = (pre' ++ f' :: post, Raise e).
Proof.
  intros Hpre Hf.
  induction Hpre as [|g g' pre pre' [a Hg] _ IH]; simpl.
  - by rewrite Hf.
  - by rewrite Hg, IH.
Qed.

(** X14. [fitPerfectModel] and [plotResults] call the method of the same
    name on every fitting problem, in order.  When every call returns, each
    problem is as its call left it and nothing else of the aggregator has
    changed.  When a call raises, the exception propagates; the problems
    before it stay as their calls left them and the ones after it are not
    called. *)
Theorem delegated_calls_in_order (kwargs : Kwargs) (self : MultiCond) :
  let claim := fun (A : Type) (op : M FittingProblem A) (method : M MultiCond unit) =>
    (forall fps',
       Forall2 (fun f f' => exists a, op f = (f', Ok a)) (fittingProblemList self) fps' ->
       method self = (set_fittingProblemList fps' self, Ok tt)) /\
    (forall pre pre' f f' post e,
       fittingProblemList self = pre ++ f :: post ->
       Forall2 (fun g g' => exists a, op g = (g', Ok a)) pre pre' ->
       op f = (f', Raise e) ->
       method self = (set_fittingProblemList (pre' ++ f' :: post) self, Raise e)) in
  claim unit (sub_fitPerfectModel kwargs) (fitPerfectModel kwargs) /\
  claim Plot (sub_plotResults kwargs) (plotResults kwargs).
Proof.
  cbv beta zeta. unfold fitPerfectModel, plotResults. repeat split.
  - intros fps' Hall. by rewrite (forEachProblem_all _ _ _ Hall).
  - intros pre pre' f f' post e -> Hpre Hf.
    by rewrite (forEachProblem_first_Raise _ _ _ _ _ post _ Hpre Hf).
  - intros fps' Hall. by rewrite (forEachProblem_all _ _ _ Hall).
  - intros pre pre' f f' post e -> Hpre Hf.
    by rewrite (forEachProblem_first_Raise _ _ _ _ _ post _ Hpre Hf).
Qed.

Lemma plotEach_prefix (name : string) (kwargs : Kwargs)
    (pre : list FittingProblem) (outs : list (FittingProblem * Plot))
    (rest : list FittingProblem) :
  Forall2 (fun f o => exists m,
             sub_fittingModelDict f !! name = Some m /\
             sub_plotModelResults m kwargs f = (o.1, Ok o.2)) pre outs ->
  forall figures,
  plotEach name kwargs (pre ++ rest) figures =
  let '((rest', figures'), r) := plotEach name kwargs rest (figures + length pre) in
  ((outs.*1 ++ rest', figures'),
   match r with
   | Ok returnList => Ok (outs.*2 ++ returnList)
   | Raise e => Raise e
   end).
Proof.
  induction 1 as [|f [f' pl] pre outs (m & Hm & Hp) _ IH]; intros figures; simpl.
  - rewrite Nat.add_0_r.
    destruct (plotEach name kwargs rest figures) as [[rest' figs] [l|e]]; done.
  - simpl in Hp. rewrite Hm, Hp, IH.
    replace (S figures + length pre)%nat with (figures + S (length pre))%nat by lia.
    destruct (plotEach name kwargs rest _) as [[rest' figs] [l|e]]; done.
Qed.

(** X15. [plotBestModelResults] with an explicit model name.  When every
    fitting problem has a model under that name and every plot call returns,
    the result lists the plots in the order of the problems and one figure
    was opened per problem.  When a problem has no model under that name,
    the problems before it having been plotted, the call raises [KeyError]
    only then: the earlier plots are done, and a figure was opened for the
    failing problem too. *)
Theorem plotBestModelResults_explicit_name (name : string) (maxIndex : Z)
    (kwargs : Kwargs) (self : MultiCond) (figures : nat) :
  let plotted := fun (f : FittingProblem) (o : FittingProblem * Plot) =>
    exists m, sub_fittingModelDict f !! name = Some m /\
              sub_plotModelResults m kwargs f = (o.1, Ok o.2) in
  (forall outs,
     Forall2 plotted (fittingProblemList self) outs ->
     plotBestModelResults (Some name) maxIndex kwargs (self, figures)
     = ((set_fittingProblemList outs.*1 self,
         (figures + length (fittingProblemList self))%nat), Ok outs.*2) /\
     length outs.*2 = length (fittingProblemList self)) /\
  (forall pre outs f post,
     fittingProblemList self = pre ++ f :: post ->
     Forall2 plotted pre outs ->
     sub_fittingModelDict f !! name = None ->
     plotBestModelResults (Some name) maxIndex kwargs (self, figures)
     = ((set_fittingProblemList (outs.*1 ++ f :: post) self,
         (figures + length pre + 1)%nat), Raise (KeyError name))).
Proof.
  intros plotted. split.
  - intros outs Hall. split.
    + unfold plotBestModelResults, ret. simpl.
      pose proof (plotEach_prefix name kwargs _ _ [] Hall figures) as H.
      rewrite app_nil_r in H. rewrite H. simpl. by rewrite !app_nil_r.
    + rewrite length_fmap. symmetry. by eapply Forall2_length.
  - intros pre outs f post Hlist Hpre Hmiss.
    unfold plotBestModelResults, ret. simpl. rewrite Hlist.
    rewrite (plotEach_prefix name kwargs _ _ (f :: post) Hpre figures). simpl.
    rewrite Hmiss. do 3 f_equal. lia.
Qed.

Lemma networkFigures_spec (name : string) (kwargs : Kwargs)
    (fps : list FittingProblem) :
  forall (filenames : list Filename) fps' r,
  networkFigures name kwargs fps filenames = (fps', r) ->
  length fps' = length fps /\
  drop (length filenames) fps' = drop (length filenames) fps /\
  (forall figs, r = Ok figs ->
     length figs = Nat.min (length fps) (length filenames) /\
     exists called : list FittingProblem,
       Forall2 (fun fq f' => exists fig,
                  sub_networkFigureBestModel fq.2 name kwargs fq.1 = (f', Ok fig))
         (zip fps filenames) called /\
       fps' = called ++ drop (length filenames) fps).
Proof.
  induction fps as [|f rest IH]; intros filenames fps' r; simpl.
  - destruct filenames; intros [= <- <-]; (split; [done|]; split; [done|]);
      intros figs [= <-]; (split; [done|]); exists []; by split; [constructor|].
  - destruct filenames as [|fn fns].
    + intros [= <- <-]. split; [done|]. split; [done|].
      intros figs [= <-]. split; [simpl; lia|]. exists []. by split; [constructor|].
    + destruct (sub_networkFigureBestModel fn name kwargs f) as [f' [fig|e]] eqn:Hf.
      * destruct (networkFigures name kwargs rest fns) as [rest' r'] eqn:Hrest.
        destruct (IH _ _ _ Hrest) as (Hlen & Hdrop & Hok).
        intros [= <- <-]. simpl. split; [by rewrite Hlen|]. split; [done|].
        intros figs Hfigs. destruct r' as [figs'|e]; [|done].
        injection Hfigs as <-.
        destruct (Hok figs' eq_refl) as (Hl & called & Hcalled & ->).
        split; [simpl; by rewrite Hl|].
        exists (f' :: called). split; [|done].
        constructor; [simpl; eauto | done].
      * intros [= <- <-]. simpl. split; [done|]. split; [done|]. done.
Qed.

(** X16. [networkFigureBestModel] with an explicit model name pairs the
    fitting problems with the file names and stops at the shorter list.
    Whatever happens, the aggregator keeps its number of problems, the
    problems beyond the last file name are not called, and nothing but the
    problems changes.  When it returns, it returns one figure per pair, each
    problem of a pair being as its call with its file name left it. *)
Theorem networkFigureBestModel_pairs (filenames : list Filename) (maxIndex : Z)
    (name : string) (kwargs : Kwargs) (self : MultiCond) :
  let out := networkFigureBestModel filenames maxIndex (Some name) kwargs self in
  let fps := fittingProblemList self in
  out.1 = set_fittingProblemList (fittingProblemList out.1) self /\
  length (fittingProblemList out.1) = length fps /\
  drop (length filenames) (fittingProblemList out.1) = drop (length filenames) fps /\
  (forall figs, out.2 = Ok figs ->
     length figs = Nat.min (length fps) (length filenames) /\
     exists called : list FittingProblem,
       Forall2 (fun fq f' => exists fig,
                  sub_networkFigureBestModel fq.2 name kwargs fq.1 = (f', Ok fig))
         (zip fps filenames) called /\
       fittingProblemList out.1 = called ++ drop (length filenames) fps).
Proof.
  cbv zeta. unfold networkFigureBestModel, ret. simpl.
  destruct (networkFigures name kwargs (fittingProblemList self) filenames)
    as [fps' r] eqn:Hn.
  destruct (networkFigures_spec _ _ _ _ _ _ Hn) as (Hlen & Hdrop & Hok).
  cbn [fst snd fittingProblemList set_fittingProblemList].
  split; [reflexivity|]. split; [exact Hlen|]. split; [exact Hdrop|]. exact Hok.
Qed.

End MultipleCondition.

Arguments mkFittingProblem {FittingModel EngineState}.
Arguments sub_costDict {FittingModel EngineState}.
Arguments sub_penaltyDict {FittingModel EngineState}.
Arguments sub_numParametersDict {FittingModel EngineState}.
Arguments sub_fittingModelDict {FittingModel EngineState}.
Arguments sub_fittingModelNames {FittingModel EngineState}.
Arguments sub_stopFittingN {FittingModel EngineState}.
Arguments sub_engine {FittingModel EngineState}.
Arguments mkMultiCond {FittingModel EngineState}.
Arguments fittingProblemList {FittingModel EngineState}.
Arguments costDict {FittingModel EngineState}.
Arguments penaltyDict {FittingModel EngineState}.
Arguments numParametersDict {FittingModel EngineState}.
Arguments logLikelihoodDict {FittingModel EngineState}.
Arguments fitAllDone {FittingModel EngineState}.
Arguments fittingModelNames {FittingModel EngineState}.
Arguments stopFittingN {FittingModel EngineState}.
Arguments set_stopFittingN {FittingModel EngineState}.
Arguments generalSetup {FittingModel EngineState}.
Arguments fitCondition {FittingModel Kwargs EngineState}.
Arguments fitAll_body {FittingModel Kwargs EngineState}.
Arguments fitAll_loop {FittingModel Kwargs EngineState}.
Arguments fitAll {FittingModel Kwargs EngineState}.
Arguments orderedLs {FittingModel EngineState}.
Arguments stoppingWindow {FittingModel EngineState}.
Arguments getBestModel {FittingModel Kwargs EngineState}.
Arguments FittingProblemMultipleCondition_init
  {FittingData FittingModel IndepParam Kwargs EngineState}.
Arguments PowerLawFittingProblemMultipleCondition_init
  {FittingData FittingModel ComplexityList IndepParam Kwargs EngineState}.

(** C10. With an explicit model name, [getBestModel] gives the same result
    and the same final state for any two values of [maxIndex] and for any two
    implementations of [maxLogLikelihoodName]: the selection is not called,
    and the object is left as it was. *)
Theorem getBestModel_explicit_name_ignores_maxIndex
    {FittingModel Kwargs EngineState : Type}
    (select1 select2 : Z -> M (MultiCond FittingModel EngineState) string)
    (name : string) (maxIndex1 maxIndex2 : Z) (kwargs : Kwargs)
    (self : MultiCond FittingModel EngineState) :
  getBestModel select1 (Some name) maxIndex1 kwargs self =
  getBestModel select2 (Some name) maxIndex2 kwargs self /\
  (getBestModel select1 (Some name) maxIndex1 kwargs self).1 = self.
Proof.
  split; [reflexivity|].
  unfold getBestModel, bind, ret, gets, raise. simpl.
  by destruct (bestModelList _ _ name (fittingProblemList self)).
Qed.

(** ** A small engine to run the definitions on

    A dataset is a table giving, for a model name, the cost and the penalty
    that fitting that model to the condition produces.  The engine's
    [fitAll] fits the first [maxNumFit] names in order and raises at the first
    name the table does not know; the keyword argument is the stopping
    window given to each problem. *)
Module Demo.

Definition Data : Type := list (string * (float * float)).

Definition problem : Type := FittingProblem string Data.
Definition aggregator : Type := MultiCond string Data.

Definition lookupData (d : Data) (name : string) : option (float * float) :=
  snd <$> List.find (fun row => bool_decide (row.1 = name)) d.

Definition init (fd : Data) (models : list string)
    (ipl : list (list float)) (kwargs : option Z) : result problem :=
  match fd with
  | [] => Raise (EngineError "no data")
  | _ =>
      Ok {| sub_costDict := ∅; sub_penaltyDict := ∅; sub_numParametersDict := ∅;
            sub_fittingModelDict := ∅; sub_fittingModelNames := models;
            sub_indepParamNames := []; sub_cutoff := 0%float;
            sub_verbose := true; sub_perfectModel := None;
            sub_perfectParams := None; sub_stopFittingN := kwargs;
            sub_engine := fd |}
  end.

(** The power-law family: the complexity list is the list of model names. *)
Definition initPowerLaw (complexityList : list string) (fd : Data)
    (ipl : list (list float)) (kwargs : option Z) : result problem :=
  init fd complexityList ipl kwargs.

Definition fitOne (name : string) (f : problem) : problem * result unit :=
  match lookupData (sub_engine f) name with
  | None => (f, Raise (EngineError "fit failed"))
  | Some (c, p) =>
      ({| sub_costDict := <[name := c]> (sub_costDict f);
          sub_penaltyDict := <[name := p]> (sub_penaltyDict f);
          sub_numParametersDict := <[name := 1]> (sub_numParametersDict f);
          sub_fittingModelDict := <[name := name]> (sub_fittingModelDict f);
          sub_fittingModelNames := sub_fittingModelNames f;
          sub_indepParamNames := sub_indepParamNames _ _ f;
          sub_cutoff := sub_cutoff _ _ f;
          sub_verbose := sub_verbose _ _ f;
          sub_perfectModel := sub_perfectModel _ _ f;
          sub_perfectParams := sub_perfectParams _ _ f;
          sub_stopFittingN := sub_stopFittingN f;
          sub_engine := sub_engine f |}, Ok tt)
  end.

Fixpoint fitNames (names : list string) (f : problem) : problem * result unit :=
  match names with
  | [] => (f, Ok tt)
  | name :: rest =>
      match fitOne name f with
      | (f', Ok _) => fitNames rest f'
      | (f', Raise e) => (f', Raise e)
      end
  end.

Definition sub_fitAll (kwargs : option Z) (maxNumFit : nat) : M problem unit :=
  fun f => fitNames (take maxNumFit (sub_fittingModelNames f)) f.

Definition maxLogLikelihoodName (maxIndex : Z) : M aggregator string :=
  fun self =>
    match fittingModelNames self with
    | [] => (self, Raise ValueError)
    | n :: _ => (self, Ok n)
    end.

Definition names7 : list string := ["m1"; "m2"; "m3"; "m4"; "m5"; "m6"; "m7"].

(** Two conditions; the summed cost plus penalty of the seven models is
    5, 4, 3, 6, 7, 8, 9. *)
Definition dataA : Data :=
  [("m1", (2, 0.5)); ("m2", (1.5, 0.5)); ("m3", (1, 0.5)); ("m4", (3, 0.5));
   ("m5", (3, 0.5)); ("m6", (4, 0.5)); ("m7", (4, 0.5))]%float.
Definition dataB : Data :=
  [("m1", (2, 0.5)); ("m2", (1.5, 0.5)); ("m3", (1, 0.5)); ("m4", (2, 0.5));
   ("m5", (3, 0.5)); ("m6", (3, 0.5)); ("m7", (4, 0.5))]%float.
(** A third condition whose fits fail from the second model on. *)
Definition dataC : Data := [("m1", (1, 0.5))]%float.

Definition build (data : list Data) (models : list string)
    (params : option (list (list (list float)))) (W : option Z)
    : result aggregator :=
  FittingProblemMultipleCondition_init init data models params None (-1) W 4242.

Definition orElse (r : result aggregator) (d : aggregator) : aggregator :=
  match r with Ok s => s | Raise _ => d end.

Definition blank : aggregator :=
  {| fittingProblemList := []; costDict := ∅; penaltyDict := ∅;
     numParametersDict := ∅; logLikelihoodDict := ∅; fitAllDone := false;
     saveFilename := None; saveKey := -1; pid := 0; fittingModelNames := [];
     indepParamNames := []; cutoff := 0%float; verbose := true;
     perfectModel := None; perfectParams := None; stopFittingN := None |}.

(** Two conditions, seven models, window 3. *)
Definition start : aggregator := orElse (build [dataA; dataB] names7 None (Some 3)) blank.
(** The same after five sweep steps. *)
Definition after5 : aggregator :=
  (fitAll_loop sub_fitAll (Some 3) 0 (take 5 names7) start).1.
(** The same after the first step, and after the sixth. *)
Definition after1 : aggregator := (fitAll_body sub_fitAll (Some 3) 0 "m1" start).1.
Definition after6 : aggregator := (fitAll_body sub_fitAll (Some 3) 5 "m6" after5).1.
(** The same after a whole run of [fitAll]. *)
Definition swept : aggregator := (fitAll sub_fitAll (Some 3) start).1.
(** Three models only, window 3. *)
Definition short : aggregator :=
  orElse (build [dataA; dataB] (take 3 names7) None (Some 3)) blank.
(** Three conditions, the third of which fails at the second model. *)
Definition failing : aggregator :=
  orElse (build [dataA; dataB; dataC] names7 None (Some 3)) blank.
Definition failing1 : aggregator :=
  (fitAll_loop sub_fitAll (Some 3) 0 (take 1 names7) failing).1.
(** A fitting problem without the [stopFittingN] attribute. *)
Definition oldProblem : problem :=
  match init dataA names7 [[]] None with
  | Ok f => f
  | Raise _ => mkFittingProblem ∅ ∅ ∅ ∅ [] [] 0%float true None None None []
  end.

End Demo.

(** ** The theorems at work on the small engine *)

(** The rule on plain lists: with window 3 it fires on the sixth entry of
    5, 6, 7, 4, 3, 2 and not before; a best value that comes back inside the
    window is a tie and does not fire. *)
Example stoppingCheck_fires_at_six :
  stoppingCheck [5; 6; 7; 4; 3; 2]%float 3 = Ok true /\
  stoppingCheck [5; 6; 7; 4; 3]%float 3 = Ok false /\
  stoppingCheck [5; 6; 7; 4]%float 3 = Ok false /\
  stoppingCheck [5; 6; 7]%float 3 = Ok false.
Proof. vm_compute. auto. Qed.

Example stoppingCheck_tie :
  stoppingCheck [5; 6; 7; 7; 3; 2]%float 3 = Ok false.
Proof. vm_compute. reflexivity. Qed.

(** The sweep over seven models returns at index 5 and never fits the
    seventh. *)
Example fitAll_demo_run :
  (fitAll_loop Demo.sub_fitAll (Some 3) 0 Demo.names7 Demo.start).2 = Returned 5 /\
  orderedLs Demo.swept = [-5; -4; -3; -6; -7; -8]%float /\
  logLikelihoodDict Demo.swept !! "m7" = None /\
  fitAllDone Demo.swept = true.
Proof. vm_compute. auto. Qed.

(** A condition whose fit fails at the second model: the run raises there
    and only the first model is recorded. *)
Example fitAll_demo_failure :
  (fitAll Demo.sub_fitAll (Some 3) Demo.failing).2 = Raise (EngineError "fit failed") /\
  orderedLs (fitAll Demo.sub_fitAll (Some 3) Demo.failing).1 = [(-6.5)%float] /\
  fitAllDone (fitAll Demo.sub_fitAll (Some 3) Demo.failing).1 = false.
Proof. vm_compute. auto. Qed.

Lemma fitAll_stopping_rule_witness :
  0 <= stoppingWindow Demo.after5 /\
  fitAll_body Demo.sub_fitAll (Some 3) 5 "m6" Demo.after5 = (Demo.after6, Ok true) /\
  Z.of_nat (length (orderedLs Demo.after6)) > stoppingWindow Demo.after5 /\
  fitAllDone Demo.after6 = true /\
  (forall rest,
     fitAll_loop Demo.sub_fitAll (Some 3) 5 ("m6" :: rest) Demo.after5
     = (Demo.after6, Returned 5)).
Proof.
  assert (H1 : 0 <= stoppingWindow Demo.after5) by (vm_compute; discriminate).
  assert (H2 : fitAll_body Demo.sub_fitAll (Some 3) 5 "m6" Demo.after5
               = (Demo.after6, Ok true)) by (vm_compute; reflexivity).
  destruct (fitAll_stopping_rule _ _ _ _ _ _ _ _ _ _ H1 H2) as (Hfire & _ & _).
  destruct (Hfire eq_refl) as (Hlen & _ & Hdone & Hloop & _).
  exact (conj H1 (conj H2 (conj Hlen (conj Hdone Hloop)))).
Defined.

Lemma fitAll_step_aggregates_witness :
  fitAll_body Demo.sub_fitAll (Some 3) 0 "m1" Demo.start = (Demo.after1, Ok false) /\
  exists costs penalties : list float,
    mapM (fun f => sub_costDict f !! "m1") (fittingProblemList Demo.after1) = Some costs /\
    mapM (fun f => sub_penaltyDict f !! "m1") (fittingProblemList Demo.after1)
      = Some penalties /\
    costDict Demo.after1 !! "m1" = Some (fold_left PrimFloat.add costs 0%float) /\
    penaltyDict Demo.after1 !! "m1" = Some (fold_left PrimFloat.add penalties 0%float) /\
    logLikelihoodDict Demo.after1 !! "m1"
      = Some (- (fold_left PrimFloat.add costs 0 + fold_left PrimFloat.add penalties 0))%float.
Proof.
  assert (H : fitAll_body Demo.sub_fitAll (Some 3) 0 "m1" Demo.start
              = (Demo.after1, Ok false)) by (vm_compute; reflexivity).
  split; [exact H|].
  destruct (fitAll_step_aggregates _ _ _ _ _ _ _ _ _ _ H)
    as (costs & pens & Hc & Hp & _ & _ & _ & H1 & H2 & H3).
  exists costs, pens. exact (conj Hc (conj Hp (conj H1 (conj H2 H3)))).
Defined.

Lemma fitAll_failed_fit_records_nothing_witness :
  exists self',
    fitAll_body Demo.sub_fitAll (Some 3) 1 "m2" Demo.failing1
      = (self', Raise (EngineError "fit failed")) /\
    costDict self' = costDict Demo.failing1 /\
    penaltyDict self' = penaltyDict Demo.failing1 /\
    logLikelihoodDict self' = logLikelihoodDict Demo.failing1.
Proof.
  destruct (fitAll_failed_fit_records_nothing _ _ _ Demo.sub_fitAll (Some 3) 1%nat "m2"
              Demo.failing1) as [Hraise _].
  destruct (Hraise (take 2 (fittingProblemList Demo.failing1))
              (default Demo.oldProblem (fittingProblemList Demo.failing1 !! 2%nat))
              (Demo.sub_fitAll (Some 3) 2
                 (default Demo.oldProblem (fittingProblemList Demo.failing1 !! 2%nat))).1
              [] (EngineError "fit failed"))
    as (self' & Hbody & Hc & Hp & Hl & _).
  - vm_compute; reflexivity.
  - repeat constructor; eexists; eexists; vm_compute; reflexivity.
  - vm_compute; reflexivity.
  - exists self'. exact (conj Hbody (conj Hc (conj Hp Hl))).
Defined.

Lemma init_pairs_up_to_shorter_witness :
  exists self,
    FittingProblemMultipleCondition_init Demo.init
      [Demo.dataA; Demo.dataB; Demo.dataC] Demo.names7 (Some [[[]]; [[]]])
      None (-1) (Some 3) 4242 = Ok self /\
    length (fittingProblemList self) = 2%nat.
Proof.
  destruct (init_pairs_up_to_shorter _ _ _ _ _ _ Demo.init
              Demo.initPowerLaw
              Demo.names7 Demo.names7 [Demo.dataA; Demo.dataB; Demo.dataC]
              (Some [[[]]; [[]]]) None (-1) (Some 3) 4242) as [(_ & _ & Hmake) _].
  destruct (Hmake (take 2 (fittingProblemList Demo.failing))
              (default Demo.oldProblem (fittingProblemList Demo.failing !! 0%nat)) 3)
    as (self & Hself & _ & Hlen).
  - repeat constructor.
  - reflexivity.
  - reflexivity.
  - exists self. split; [exact Hself | exact Hlen].
Defined.

(** Three datasets and an empty sequence of parameter lists: no problem is
    built and the shared setup raises. *)
Lemma init_with_no_parameter_lists_raises :
  FittingProblemMultipleCondition_init Demo.init
    [Demo.dataA; Demo.dataB; Demo.dataC] Demo.names7 (Some [])
    None (-1) (Some 3) 4242 = Raise IndexError /\
  ~ (exists self,
       FittingProblemMultipleCondition_init Demo.init
         [Demo.dataA; Demo.dataB; Demo.dataC] Demo.names7 (Some [])
         None (-1) (Some 3) 4242 = Ok self /\
       length (fittingProblemList self) = Nat.min 3 0).
Proof.
  split; [reflexivity|]. intros (self & H & _). discriminate H.
Qed.

Lemma generalSetup_stopFittingN_witness :
  exists self,
    generalSetup (fittingProblemList Demo.start) None (-1) 4242 = Ok self /\
    stopFittingN self = Some 3.
Proof.
  destruct (generalSetup_stopFittingN _ _ _ Demo.sub_fitAll
              (default Demo.oldProblem (fittingProblemList Demo.start !! 0%nat))
              (drop 1 (fittingProblemList Demo.start)) None (-1) 4242)
    as (Hcopy & _ & _).
  destruct (Hcopy 3) as (self & Hself & Hw); [reflexivity|].
  exists self. split; [exact Hself | exact Hw].
Defined.

(** A first fitting problem without the attribute: the setup raises instead
    of settling on 3. *)
Lemma generalSetup_without_stopFittingN_raises :
  sub_stopFittingN Demo.oldProblem = None /\
  generalSetup [Demo.oldProblem] None (-1) 4242
    = Raise (AttributeError "stopFittingN") /\
  ~ (exists self,
       generalSetup [Demo.oldProblem] None (-1) 4242 = Ok self /\
       stopFittingN self = Some 3).
Proof.
  split; [reflexivity|]. split; [reflexivity|].
  intros (self & H & _). discriminate H.
Qed.

Lemma fitAll_short_list_completes_witness :
  Z.of_nat (length (fittingModelNames Demo.short)) <= stoppingWindow Demo.short /\
  fitAllDone (fitAll Demo.sub_fitAll (Some 3) Demo.short).1 = true /\
  forall n, n ∈ fittingModelNames Demo.short ->
    is_Some (logLikelihoodDict (fitAll Demo.sub_fitAll (Some 3) Demo.short).1 !! n).
Proof.
  assert (H : Z.of_nat (length (fittingModelNames Demo.short))
              <= stoppingWindow Demo.short) by (vm_compute; discriminate).
  split; [exact H|].
  destruct (fitAll_short_list_completes _ _ _ Demo.sub_fitAll (Some 3) Demo.short H)
    as [_ Hrun].
  destruct (Hrun (fitAll Demo.sub_fitAll (Some 3) Demo.short).1) as (_ & Hdone & Hall).
  - vm_compute; reflexivity.
  - split; [exact Hdone|]. intros n Hn. by destruct (Hall n Hn) as (_ & _ & Hl).
Defined.

Lemma getBestModel_explicit_name_witness :
  getBestModel Demo.maxLogLikelihoodName (Some "m3") (-4) (Some 3) Demo.swept
    = (Demo.swept, Ok ["m3"; "m3"]) /\
  length ["m3"; "m3"] = length (fittingProblemList Demo.swept).
Proof.
  destruct (getBestModel_explicit_name _ _ _ Demo.maxLogLikelihoodName "m3" (-4)
              (Some 3) Demo.swept) as [Hfound _].
  apply Hfound. vm_compute. repeat constructor.
Defined.

Lemma fitAll_records_prefix_witness :
  logLikelihoodDict Demo.start = ∅ /\
  fitAll_loop Demo.sub_fitAll (Some 3) 0 (fittingModelNames Demo.start) Demo.start
    = ((fitAll_loop Demo.sub_fitAll (Some 3) 0 (fittingModelNames Demo.start)
          Demo.start).1, Returned 5) /\
  dom (logLikelihoodDict Demo.swept)
    = list_to_set (take 6 (fittingModelNames Demo.start)) /\
  fitAllDone Demo.swept = true.
Proof.
  assert (Hl : logLikelihoodDict Demo.start = ∅) by reflexivity.
  assert (Hloop :
    fitAll_loop Demo.sub_fitAll (Some 3) 0 (fittingModelNames Demo.start) Demo.start
    = ((fitAll_loop Demo.sub_fitAll (Some 3) 0 (fittingModelNames Demo.start)
          Demo.start).1, Returned 5)) by (vm_compute; reflexivity).
  destruct (fitAll_records_prefix _ _ _ Demo.sub_fitAll (Some 3) Demo.start)
    as [Hrun _].
  destruct (Hrun _ _ Hloop) as (_ & _ & _ & _ & _ & _ & Hdom & Hdone & _);
    [discriminate|].
  exact (conj Hl (conj Hloop (conj (Hdom Hl) Hdone))).
Defined.

(** A second run of [fitAll] on the object the first run left: it returns
    at index 0, one step completed, and the six names of the first run are
    still recorded. *)
Lemma fitAll_second_run_keeps_first_run :
  ((fitAll_loop Demo.sub_fitAll (Some 3) 0 (fittingModelNames Demo.swept) Demo.swept).2
   = Returned 0) /\
  completedSteps (Returned 0) (length (fittingModelNames Demo.swept)) = 1%nat /\
  is_Some (logLikelihoodDict (fitAll Demo.sub_fitAll (Some 3) Demo.swept).1 !! "m6") /\
  ("m6" ∉ take 1 (fittingModelNames Demo.swept)) /\
  dom (logLikelihoodDict (fitAll Demo.sub_fitAll (Some 3) Demo.swept).1)
    <> list_to_set (take 1 (fittingModelNames Demo.swept)).
Proof.
  assert (H6 : is_Some (logLikelihoodDict
                          (fitAll Demo.sub_fitAll (Some 3) Demo.swept).1 !! "m6"))
    by (vm_compute; eauto).
  assert (Hnot : "m6" ∉ take 1 (fittingModelNames Demo.swept))
    by (apply (bool_decide_unpack _); vm_compute; exact I).
  split; [vm_compute; reflexivity|]. split; [reflexivity|].
  split; [exact H6|]. split; [exact Hnot|].
  intros Hdom. apply Hnot. apply (elem_of_list_to_set (C:=gset string)).
  rewrite <- Hdom. by apply elem_of_dom.
Qed.

Arguments fitsFrom {FittingModel Kwargs EngineState}.
Arguments completedSteps : clear implicits.
Arguments fitPerfectModel {FittingModel Kwargs EngineState}.
Arguments plotResults {FittingModel Kwargs EngineState Plot}.
Arguments plotBestModelResults {FittingModel Kwargs EngineState}
  maxLogLikelihoodName {Plot} sub_plotModelResults.
Arguments networkFigureBestModel {FittingModel Kwargs EngineState}
  maxLogLikelihoodName {Plot Filename} sub_networkFigureBestModel.
Arguments CTSNFittingProblemMultipleCondition_init
  {FittingData FittingModel ComplexityList IndepParam Kwargs EngineState}.

(** ** More runs of the small engine *)
Module DemoMore.
Import Demo.

(** The seven-model sweep of [Demo.start] with other windows. *)
Definition zeroWindow : aggregator :=
  orElse (build [dataA; dataB] names7 None (Some 0)) blank.
Definition negativeWindow : aggregator :=
  orElse (build [dataA; dataB] names7 None (Some (-1))) blank.

(** A condition whose first model has a cost that is not a number. *)
Definition dataNaN : Data :=
  [("m1", (nan, 0.5)); ("m2", (1.5, 0.5)); ("m3", (1, 0.5)); ("m4", (3, 0.5));
   ("m5", (3, 0.5)); ("m6", (4, 0.5)); ("m7", (4, 0.5))]%float.
Definition nanStart : aggregator :=
  orElse (build [dataNaN; dataB] names7 None (Some 3)) blank.
Definition nanAfter1 : aggregator :=
  (fitAll_body sub_fitAll (Some 3) 0 "m1" nanStart).1.

(** An engine whose fit returns without fitting anything. *)
Definition lazyFit (kwargs : option Z) (maxNumFit : nat) : M problem unit :=
  fun f => (f, Ok tt).

(** The state in which the sweep of [Demo.start] returns. *)
Definition stopped : aggregator :=
  (fitAll_loop sub_fitAll (Some 3) 0 (fittingModelNames start) start).1.

(** The problems of [Demo.failing1]: two that fit the second model and a
    third that does not. *)
Definition fitting2 : list problem := take 2 (fittingProblemList failing1).
Definition fitted2 : list problem :=
  map (fun g => (fitCondition sub_fitAll (Some 3) 2 "m2" g).1) fitting2.
Definition third : problem :=
  default oldProblem (fittingProblemList failing1 !! 2%nat).

(** The first problem of [Demo.start] and the ones after it. *)
Definition first : problem := default oldProblem (fittingProblemList start !! 0%nat).
Definition others : list problem := drop 1 (fittingProblemList start).

(** Delegated methods of the small engine.  Fitting the perfect model fails
    on a condition whose table does not know the second model; a plot of a
    model returns the model's name; a network figure returns the file name
    followed by the model name. *)
Definition perfectFit (kwargs : option Z) : M problem unit :=
  fun f =>
    match lookupData (sub_engine f) "m2" with
    | None => (f, Raise (EngineError "no perfect fit"))
    | Some _ => (f, Ok tt)
    end.
Definition plotOf (kwargs : option Z) : M problem string :=
  fun f => (f, Ok "results").
Definition plotModel (m : string) (kwargs : option Z) : M problem string :=
  fun f => (f, Ok m).
Definition networkFigure (filename : string) (modelName : string)
    (kwargs : option Z) : M problem string :=
  fun f => (f, Ok (filename +:+ modelName)).

(** An engine that fits the models its table knows and passes over the
    others without raising. *)
Definition fitKnown (name : string) (f : problem) : problem :=
  match lookupData (sub_engine f) name with
  | None => f
  | Some _ => (fitOne name f).1
  end.
Definition partialFit (kwargs : option Z) (maxNumFit : nat) : M problem unit :=
  fun f =>
    (foldl (fun g n => fitKnown n g) f (take maxNumFit (sub_fittingModelNames f)),
     Ok tt).

(** The three conditions of [Demo.failing] after the first sweep step with
    that engine; the third knows the first model only. *)
Definition partial1 : aggregator :=
  (fitAll_loop partialFit (Some 3) 0 (take 1 names7) failing).1.
Definition partialFitting2 : list problem := take 2 (fittingProblemList partial1).
Definition partialFitted2 : list problem :=
  map (fun g => (fitCondition partialFit (Some 3) 2 "m2" g).1) partialFitting2.
Definition partialThird : problem :=
  default oldProblem (fittingProblemList partial1 !! 2%nat).

End DemoMore.

(** ** The further theorems at work *)

Lemma fitAll_lockstep_witness :
  fitAll_loop Demo.sub_fitAll (Some 3) 0 (fittingModelNames Demo.start) Demo.start
    = (DemoMore.stopped, Returned 5) /\
  Forall2 (fun f f' =>
             fitsFrom Demo.sub_fitAll (Some 3) 0
               (completedSteps (Returned 5) (length (fittingModelNames Demo.start))) f
             = (f', Ok tt))
    (fittingProblemList Demo.start) (fittingProblemList DemoMore.stopped).
Proof.
  assert (Hloop :
    fitAll_loop Demo.sub_fitAll (Some 3) 0 (fittingModelNames Demo.start) Demo.start
    = (DemoMore.stopped, Returned 5)) by (vm_compute; reflexivity).
  split; [exact Hloop|].
  destruct (fitAll_lockstep _ _ _ Demo.sub_fitAll (Some 3) Demo.start
              DemoMore.stopped (Returned 5) Hloop) as [_ Hall]; [discriminate|].
  exact Hall.
Defined.

Lemma fitAll_numParameters_witness :
  fittingModelNames Demo.start <> [] /\
  (fitAll Demo.sub_fitAll (Some 3) Demo.start).2 = Ok tt /\
  exists f0 rest0,
    fittingProblemList (fitAll Demo.sub_fitAll (Some 3) Demo.start).1 = f0 :: rest0 /\
    numParametersDict (fitAll Demo.sub_fitAll (Some 3) Demo.start).1
    = sub_numParametersDict f0.
Proof.
  assert (H1 : fittingModelNames Demo.start <> []) by (vm_compute; discriminate).
  assert (H2 : (fitAll Demo.sub_fitAll (Some 3) Demo.start).2 = Ok tt)
    by (vm_compute; reflexivity).
  exact (conj H1 (conj H2
           (fitAll_numParameters _ _ _ Demo.sub_fitAll (Some 3) Demo.start H1 H2))).
Defined.

Lemma fitAll_stops_at_first_witness :
  logLikelihoodDict Demo.start = ∅ /\
  NoDup (fittingModelNames Demo.start) /\
  length (orderedLs DemoMore.stopped) = 6%nat /\
  (forall m, (0 < m < length (orderedLs DemoMore.stopped))%nat ->
     stoppingCheck (take m (orderedLs DemoMore.stopped)) (stoppingWindow Demo.start)
     = Ok false) /\
  stoppingCheck (orderedLs DemoMore.stopped) (stoppingWindow Demo.start) = Ok true.
Proof.
  assert (Hl : logLikelihoodDict Demo.start = ∅) by reflexivity.
  assert (Hnd : NoDup (fittingModelNames Demo.start))
    by (apply (bool_decide_unpack _); vm_compute; exact I).
  assert (Hloop :
    fitAll_loop Demo.sub_fitAll (Some 3) 0 (fittingModelNames Demo.start) Demo.start
    = (DemoMore.stopped, Returned 5)) by (vm_compute; reflexivity).
  destruct (fitAll_stops_at_first _ _ _ Demo.sub_fitAll (Some 3) Demo.start
              DemoMore.stopped (Returned 5) Hl Hnd Hloop)
    as (_ & Hlen & Hfalse & Htrue & _); [discriminate|].
  exact (conj Hl (conj Hnd (conj Hlen (conj Hfalse (Htrue 5%nat eq_refl))))).
Defined.

Lemma fitAll_sweeps_beyond_window_witness :
  0 <= stoppingWindow Demo.start /\
  stoppingWindow Demo.start <= Z.of_nat 5 /\
  (Z.to_nat (stoppingWindow Demo.start) + 1 <= length (orderedLs DemoMore.stopped))%nat.
Proof.
  assert (Hl : logLikelihoodDict Demo.start = ∅) by reflexivity.
  assert (Hnd : NoDup (fittingModelNames Demo.start))
    by (apply (bool_decide_unpack _); vm_compute; exact I).
  assert (HW : 0 <= stoppingWindow Demo.start) by (vm_compute; discriminate).
  assert (Hloop :
    fitAll_loop Demo.sub_fitAll (Some 3) 0 (fittingModelNames Demo.start) Demo.start
    = (DemoMore.stopped, Returned 5)) by (vm_compute; reflexivity).
  exact (conj HW (fitAll_sweeps_beyond_window _ _ _ Demo.sub_fitAll (Some 3) Demo.start
                    DemoMore.stopped 5%nat Hl Hnd HW Hloop)).
Defined.

Lemma fitAll_zero_window_witness :
  stoppingWindow DemoMore.zeroWindow = 0 /\
  (fitAll Demo.sub_fitAll (Some 0) DemoMore.zeroWindow).2 = Ok tt /\
  forall n, n ∈ fittingModelNames DemoMore.zeroWindow ->
    is_Some (logLikelihoodDict (fitAll Demo.sub_fitAll (Some 0) DemoMore.zeroWindow).1 !! n).
Proof.
  assert (HW : stoppingWindow DemoMore.zeroWindow = 0) by (vm_compute; reflexivity).
  assert (Hok : (fitAll Demo.sub_fitAll (Some 0) DemoMore.zeroWindow).2 = Ok tt)
    by (vm_compute; reflexivity).
  destruct (fitAll_zero_window _ _ _ Demo.sub_fitAll (Some 0) DemoMore.zeroWindow HW)
    as [_ Hall].
  split; [exact HW|]. split; [exact Hok|].
  intros n Hn. destruct (Hall Hok n Hn) as (_ & _ & H). exact H.
Defined.

Lemma fitAll_negative_window_witness :
  stoppingWindow DemoMore.negativeWindow < 0 /\
  (fitAll Demo.sub_fitAll (Some (-1)) DemoMore.negativeWindow).2 = Raise ValueError /\
  is_Some (logLikelihoodDict (fitAll Demo.sub_fitAll (Some (-1))
                                DemoMore.negativeWindow).1 !! "m1") /\
  fitAllDone (fitAll Demo.sub_fitAll (Some (-1)) DemoMore.negativeWindow).1
  = fitAllDone DemoMore.negativeWindow.
Proof.
  assert (HW : stoppingWindow DemoMore.negativeWindow < 0) by (vm_compute; reflexivity).
  assert (Hl : logLikelihoodDict DemoMore.negativeWindow = ∅) by reflexivity.
  assert (Hn : fittingModelNames DemoMore.negativeWindow = "m1" :: tail Demo.names7)
    by (vm_compute; reflexivity).
  assert (Hnotin : "m1" ∉ tail Demo.names7)
    by (apply (bool_decide_unpack _); vm_compute; exact I).
  destruct (fitAll_negative_window _ _ _ Demo.sub_fitAll (Some (-1))
              DemoMore.negativeWindow "m1" (tail Demo.names7) HW Hl Hn Hnotin)
    as (_ & Hdone & Hfits).
  destruct Hfits as (Hraise & _ & _ & Hrec).
  - vm_compute. discriminate.
  - assert (Hfps : fittingProblemList DemoMore.negativeWindow
                   = [default Demo.oldProblem
                        (fittingProblemList DemoMore.negativeWindow !! 0%nat);
                      default Demo.oldProblem
                        (fittingProblemList DemoMore.negativeWindow !! 1%nat)])
      by (vm_compute; reflexivity).
    rewrite Hfps.
    repeat constructor; eexists; eexists; vm_compute; reflexivity.
  - exact (conj HW (conj Hraise (conj Hrec Hdone))).
Defined.

Lemma fitAll_failure_stops_conditions_witness :
  fittingProblemList Demo.failing1 = DemoMore.fitting2 ++ DemoMore.third :: [] /\
  exists self',
    fitAll_body Demo.sub_fitAll (Some 3) 1 "m2" Demo.failing1
      = (self', Raise (EngineError "fit failed")) /\
    fittingProblemList self'
      = DemoMore.fitted2 ++ (Demo.sub_fitAll (Some 3) 2 DemoMore.third).1 :: [] /\
    logLikelihoodDict self' = logLikelihoodDict Demo.failing1 /\
    fitAllDone self' = fitAllDone Demo.failing1.
Proof.
  assert (Hlist : fittingProblemList Demo.failing1
                  = DemoMore.fitting2 ++ DemoMore.third :: [])
    by (vm_compute; reflexivity).
  split; [exact Hlist|].
  destruct (fitAll_failure_stops_conditions _ _ _ Demo.sub_fitAll (Some 3) 1%nat "m2"
              Demo.failing1 DemoMore.fitting2 DemoMore.fitted2 DemoMore.third
              (Demo.sub_fitAll (Some 3) 2 DemoMore.third).1 []
              (EngineError "fit failed") Hlist)
    as (self' & Hbody & Hfps & _ & _ & Hl & Hdone & _).
  - assert (H2 : DemoMore.fitting2
                 = [default Demo.oldProblem (DemoMore.fitting2 !! 0%nat);
                    default Demo.oldProblem (DemoMore.fitting2 !! 1%nat)])
      by (vm_compute; reflexivity).
    unfold DemoMore.fitted2. rewrite H2. simpl map.
    repeat constructor; eexists; vm_compute; reflexivity.
  - vm_compute; reflexivity.
  - exists self'. exact (conj Hbody (conj Hfps (conj Hl Hdone))).
Defined.

Lemma fitAll_missing_cost_witness :
  fittingProblemList DemoMore.partial1
    = DemoMore.partialFitting2 ++ DemoMore.partialThird :: [] /\
  sub_costDict (DemoMore.partialFit (Some 3) 2 DemoMore.partialThird).1 !! "m2" = None /\
  exists self',
    fitAll_body DemoMore.partialFit (Some 3) 1 "m2" DemoMore.partial1
      = (self', Raise (KeyError "m2")) /\
    fittingProblemList self'
      = DemoMore.partialFitted2
        ++ (DemoMore.partialFit (Some 3) 2 DemoMore.partialThird).1 :: [] /\
    logLikelihoodDict self' = logLikelihoodDict DemoMore.partial1 /\
    fitAllDone self' = fitAllDone DemoMore.partial1.
Proof.
  assert (Hlist : fittingProblemList DemoMore.partial1
                  = DemoMore.partialFitting2 ++ DemoMore.partialThird :: [])
    by (vm_compute; reflexivity).
  assert (Hmiss : sub_costDict (DemoMore.partialFit (Some 3) 2 DemoMore.partialThird).1
                    !! "m2" = None) by (vm_compute; reflexivity).
  split; [exact Hlist|]. split; [exact Hmiss|].
  destruct (fitAll_missing_cost _ _ _ DemoMore.partialFit (Some 3) 1%nat "m2"
              DemoMore.partial1 DemoMore.partialFitting2 DemoMore.partialFitted2
              DemoMore.partialThird
              (DemoMore.partialFit (Some 3) 2 DemoMore.partialThird).1 [] Hlist)
    as (self' & Hbody & Hfps & _ & _ & Hl & Hdone & _).
  - assert (H2 : DemoMore.partialFitting2
                 = [default Demo.oldProblem (DemoMore.partialFitting2 !! 0%nat);
                    default Demo.oldProblem (DemoMore.partialFitting2 !! 1%nat)])
      by (vm_compute; reflexivity).
    unfold DemoMore.partialFitted2. rewrite H2. cbn [map].
    repeat constructor; eexists; vm_compute; reflexivity.
  - vm_compute; reflexivity.
  - left. exact Hmiss.
  - exists self'. exact (conj Hbody (conj Hfps (conj Hl Hdone))).
Defined.

Lemma fitAll_nan_blocks_stopping_witness :
  fitAll_body Demo.sub_fitAll (Some 3) 0 "m1" DemoMore.nanStart
    = (DemoMore.nanAfter1, Ok false) /\
  head (orderedLs DemoMore.nanAfter1) = Some nan /\
  is_nan nan = true /\
  Ok false <> Ok true.
Proof.
  assert (HW : 0 <= stoppingWindow DemoMore.nanStart) by (vm_compute; discriminate).
  assert (Hbody : fitAll_body Demo.sub_fitAll (Some 3) 0 "m1" DemoMore.nanStart
                  = (DemoMore.nanAfter1, Ok false)) by (vm_compute; reflexivity).
  assert (Hhead : head (orderedLs DemoMore.nanAfter1) = Some nan)
    by (vm_compute; reflexivity).
  assert (Hnan : is_nan nan = true) by (vm_compute; reflexivity).
  exact (conj Hbody (conj Hhead (conj Hnan
           (fitAll_nan_blocks_stopping _ _ _ Demo.sub_fitAll (Some 3) 0%nat "m1"
              DemoMore.nanStart DemoMore.nanAfter1 (Ok false) nan
              HW Hbody Hhead Hnan)))).
Defined.

Lemma init_constructor_error_propagates_witness :
  Demo.init [] Demo.names7 [[]] (Some 3) = Raise (EngineError "no data") /\
  FittingProblemMultipleCondition_init Demo.init [Demo.dataA; []; Demo.dataB]
    Demo.names7 None None (-1) (Some 3) 4242 = Raise (EngineError "no data").
Proof.
  assert (Hfail : Demo.init [] Demo.names7 [[]] (Some 3) = Raise (EngineError "no data"))
    by reflexivity.
  split; [exact Hfail|].
  apply (init_constructor_error_propagates _ _ _ _ _ Demo.init Demo.names7
           [Demo.dataA; []; Demo.dataB] None None (-1) (Some 3) 4242
           [(Demo.dataA, [[]])] [(Demo.dataB, [[]])] [] [[]]
           (EngineError "no data")).
  - reflexivity.
  - constructor; [|constructor]. eexists. reflexivity.
  - exact Hfail.
Defined.

Lemma delegated_calls_in_order_witness :
  fitPerfectModel DemoMore.perfectFit (Some 3) Demo.start = (Demo.start, Ok tt) /\
  fitPerfectModel DemoMore.perfectFit (Some 3) Demo.failing1
  = (Demo.failing1, Raise (EngineError "no perfect fit")) /\
  plotResults DemoMore.plotOf (Some 3) Demo.start = (Demo.start, Ok tt).
Proof.
  destruct (delegated_calls_in_order _ _ _ _ DemoMore.perfectFit DemoMore.plotOf
              (Some 3) Demo.start) as [[Hfit _] [Hplot _]].
  destruct (delegated_calls_in_order _ _ _ _ DemoMore.perfectFit DemoMore.plotOf
              (Some 3) Demo.failing1) as [[_ Hfail] _].
  assert (Hstart : fittingProblemList Demo.start = [DemoMore.first] ++ DemoMore.others)
    by (vm_compute; reflexivity).
  assert (Hothers : DemoMore.others
                    = [default Demo.oldProblem (DemoMore.others !! 0%nat)])
    by (vm_compute; reflexivity).
  assert (Hsame : set_fittingProblemList _ _ (fittingProblemList Demo.start) Demo.start
                  = Demo.start) by (vm_compute; reflexivity).
  assert (Hsame1 : set_fittingProblemList _ _
                     (DemoMore.fitting2 ++ DemoMore.third :: []) Demo.failing1
                   = Demo.failing1) by (vm_compute; reflexivity).
  assert (Hall : forall (A : Type) (op : M Demo.problem A) (a : A),
            (forall f, op f = (f, Ok a)) ->
            Forall2 (fun f f' => exists a, op f = (f', Ok a))
              (fittingProblemList Demo.start) (fittingProblemList Demo.start)).
  { intros A op a Hop. apply Forall_Forall2_diag, Forall_forall. intros f _. eauto. }
  split; [|split].
  - rewrite <- Hsame at 2. apply Hfit.
    rewrite Hstart at 1 2. rewrite Hothers.
    repeat constructor; exists tt; vm_compute; reflexivity.
  - rewrite <- Hsame1 at 2.
    apply (Hfail DemoMore.fitting2 DemoMore.fitting2 DemoMore.third DemoMore.third []).
    + vm_compute; reflexivity.
    + assert (H2 : DemoMore.fitting2
                   = [default Demo.oldProblem (DemoMore.fitting2 !! 0%nat);
                      default Demo.oldProblem (DemoMore.fitting2 !! 1%nat)])
        by (vm_compute; reflexivity).
      rewrite H2. repeat constructor; exists tt; vm_compute; reflexivity.
    + vm_compute; reflexivity.
  - rewrite <- Hsame at 2. apply Hplot. by apply (Hall _ _ "results"%string).
Defined.

Lemma plotBestModelResults_explicit_name_witness :
  plotBestModelResults Demo.maxLogLikelihoodName DemoMore.plotModel
    (Some "m7") (-4) (Some 3) (Demo.swept, 0%nat)
  = ((set_fittingProblemList _ _
        ([] ++ default Demo.oldProblem (fittingProblemList Demo.swept !! 0%nat)
            :: drop 1 (fittingProblemList Demo.swept)) Demo.swept,
      (0 + 0 + 1)%nat), Raise (KeyError "m7")).
Proof.
  destruct (plotBestModelResults_explicit_name _ _ _ Demo.maxLogLikelihoodName _
              DemoMore.plotModel "m7" (-4) (Some 3) Demo.swept 0%nat) as [_ Hmiss].
  apply (Hmiss [] []).
  - vm_compute; reflexivity.
  - constructor.
  - vm_compute; reflexivity.
Defined.

Lemma networkFigureBestModel_pairs_witness :
  (networkFigureBestModel Demo.maxLogLikelihoodName DemoMore.networkFigure
     ["a.png"] (-4) (Some "m3") (Some 3) Demo.swept).2 = Ok ["a.pngm3"] /\
  length ["a.pngm3"] = Nat.min (length (fittingProblemList Demo.swept)) (length ["a.png"]) /\
  drop 1 (fittingProblemList
            (networkFigureBestModel Demo.maxLogLikelihoodName DemoMore.networkFigure
               ["a.png"] (-4) (Some "m3") (Some 3) Demo.swept).1)
  = drop 1 (fittingProblemList Demo.swept).
Proof.
  destruct (networkFigureBestModel_pairs _ _ _ Demo.maxLogLikelihoodName _ _
              DemoMore.networkFigure ["a.png"] (-4) "m3" (Some 3) Demo.swept)
    as (_ & _ & Hdrop & Hok).
  assert (Hres : (networkFigureBestModel Demo.maxLogLikelihoodName DemoMore.networkFigure
                    ["a.png"] (-4) (Some "m3") (Some 3) Demo.swept).2 = Ok ["a.pngm3"])
    by (vm_compute; reflexivity).
  destruct (Hok _ Hres) as [Hlen _].
  exact (conj Hres (conj Hlen Hdrop)).
Defined.
